(** * go-cql-scaffold: the CQL type mapper and the struct generator of main.go

    A shallow embedding of [cqlToGoType], [toPascal], [generateGoStruct],
    [fetchColumnDefinitions] and the table loop of [main], with the
    properties of the type grammar and of struct assembly stated over it.

    Go strings are byte sequences and are modelled as [string].  The Go
    library functions [strings.ToLower] and [strings.TrimSpace] are modelled
    on their ASCII paths: on a string with a byte above 127 Go consults the
    Unicode tables, which are outside this development, so the statements
    that quantify over arbitrary input and depend on either function carry
    the hypothesis [isASCII]. *)

From Stdlib Require Import Ascii List Arith Lia Bool.
From stdpp Require Import gmap strings fin_maps.
From Equations Require Import Equations.
Import ListNotations.

#[local] Arguments String.append !_ _ / : simpl nomatch.

(** ** Go values *)

(** A Go function returning [(T, error)]: the value, or the error's message. *)
Inductive result (A : Type) : Type :=
| Ok (a : A)
| Err (msg : string).
Arguments Ok {A} a.
Arguments Err {A} msg.

(** A Go call either returns or panics. *)
Inductive outcome (A : Type) : Type :=
| Returned (r : A)
| Panicked (msg : string).
Arguments Returned {A} r.
Arguments Panicked {A} msg.

(** ** Bytes and the string library *)

Module GoStrings.

Definition byte (c : ascii) : nat := nat_of_ascii c.

(** [utf8.RuneSelf] is 0x80. *)
Definition isASCIIByte (c : ascii) : bool := byte c <? 128.

Fixpoint isASCII (s : string) : bool :=
  match s with
  | EmptyString => true
  | String c s' => isASCIIByte c && isASCII s'
  end.

Definition isUpperByte (c : ascii) : bool := (65 <=? byte c) && (byte c <=? 90).
Definition isLowerByte (c : ascii) : bool := (97 <=? byte c) && (byte c <=? 122).
Definition isDigitByte (c : ascii) : bool := (48 <=? byte c) && (byte c <=? 57).

(** ['A' <= c && c <= 'Z'] becomes [c + ('a' - 'A')]. *)
Definition lowerByte (c : ascii) : ascii :=
  if isUpperByte c then ascii_of_nat (byte c + 32) else c.

Definition upperByte (c : ascii) : ascii :=
  if isLowerByte c then ascii_of_nat (byte c - 32) else c.

Fixpoint mapBytes (f : ascii -> ascii) (s : string) : string :=
  match s with
  | EmptyString => EmptyString
  | String c s' => String (f c) (mapBytes f s')
  end.

(** [strings.ToLower], ASCII path. *)
Definition ToLower (s : string) : string := mapBytes lowerByte s.

(** The table [asciiSpace] of package strings: tab, newline, vertical tab,
    form feed, carriage return, space. *)
Definition asciiSpace (c : ascii) : bool :=
  ((9 <=? byte c) && (byte c <=? 13)) || (byte c =? 32).

Fixpoint TrimLeft (s : string) : string :=
  match s with
  | EmptyString => EmptyString
  | String c s' => if asciiSpace c then TrimLeft s' else s
  end.

Fixpoint TrimRight (s : string) : string :=
  match s with
  | EmptyString => EmptyString
  | String c s' =>
      match TrimRight s' with
      | EmptyString => if asciiSpace c then EmptyString else String c EmptyString
      | t => String c t
      end
  end.

(** [strings.TrimSpace], ASCII path: the first loop advances [start] over
    leading spaces, the second moves [stop] back over trailing ones. *)
Definition TrimSpace (s : string) : string := TrimRight (TrimLeft s).

(** [fmt.Sprintf] for the verbs the program uses: [%s], and [%v] on an
    error, both of which print the argument's text. *)
Fixpoint Sprintf (format : string) (args : list string) : string :=
  match format with
  | EmptyString => EmptyString
  | String "%"%char (String v rest as tail) =>
      if (v =? "s")%char || (v =? "v")%char then
        match args with
        | a :: args' => a +:+ Sprintf rest args'
        | [] => "%!" +:+ String v "(MISSING)" +:+ Sprintf rest []
        end
      else String "%"%char (Sprintf tail args)
  | String c rest => String c (Sprintf rest args)
  end.

(** Every byte of [s] satisfies [P]. *)
Fixpoint allBytes (P : ascii -> bool) (s : string) : bool :=
  match s with
  | EmptyString => true
  | String c s' => P c && allBytes P s'
  end.

Definition differs (c x : ascii) : bool := negb (c =? x)%char.

End GoStrings.
Import GoStrings.

(** ** The regular expressions of cqlToGoType *)

Module Regexp.

(** The fragment of RE2 syntax the three patterns are written in: a
    literal byte, or the capturing group [(.+)]. *)
Inductive item : Type :=
| Lit (c : ascii)
| DotPlus.

(** A pattern anchored by [^] and [$]. *)
Definition regexp : Type := list item.

Fixpoint parseBody (pat : string) : option regexp :=
  match pat with
  | EmptyString => None
  | String "$"%char EmptyString => Some []
  | String "("%char (String "."%char (String "+"%char (String ")"%char rest))) =>
      option_map (cons DotPlus) (parseBody rest)
  | String c rest => option_map (cons (Lit c)) (parseBody rest)
  end.

(** [regexp.MustCompile] on a pattern of the fragment; [None] outside it. *)
Definition MustCompile (pat : string) : option regexp :=
  match pat with
  | String "^"%char body => parseBody body
  | _ => None
  end.

(** [.] matches any character except newline (no [s] flag). *)
Definition dot (c : ascii) : bool := negb (byte c =? 10).

(** The greedy group [(.+)] followed by the continuation [k]: one or more
    [dot] bytes, the longest run first, giving back one byte at a time
    until [k] accepts the rest (leftmost-first matching). *)
Fixpoint dotPlus (k : string -> option (list string)) (s : string)
  : option (string * list string) :=
  match s with
  | EmptyString => None
  | String c s' =>
      if dot c then
        match dotPlus k s' with
        | Some (g, caps) => Some (String c g, caps)
        | None =>
            match k s' with
            | Some caps => Some (String c EmptyString, caps)
            | None => None
            end
        end
      else None
  end.

(** Match the items against the whole of [s]; the captures, in order. *)
Fixpoint matchItems (p : regexp) (s : string) : option (list string) :=
  match p with
  | [] => match s with EmptyString => Some [] | _ => None end
  | Lit c :: p' =>
      match s with
      | String d s' => if (c =? d)%char then matchItems p' s' else None
      | EmptyString => None
      end
  | DotPlus :: p' =>
      match dotPlus (matchItems p') s with
      | Some (g, caps) => Some (g :: caps)
      | None => None
      end
  end.

(** [re.FindStringSubmatch(s)]: [nil], or the whole match followed by the
    captures. *)
Definition FindStringSubmatch (re : option regexp) (s : string)
  : option (list string) :=
  match re with
  | Some p => option_map (cons s) (matchItems p s)
  | None => None
  end.

End Regexp.
Import Regexp.

(** A byte the patterns' [.] matches and lower-casing leaves alone. *)
Definition plainByte (c : ascii) : bool := dot c && negb (isUpperByte c).

Definition mapPattern : option regexp := MustCompile "^map<(.+),(.+)>$".
Definition listPattern : option regexp := MustCompile "^list<(.+)>$".
Definition setPattern : option regexp := MustCompile "^set<(.+)>$".

(** [matches[i]] *)
Definition index (matches : list string) (i : nat) : string :=
  nth i matches EmptyString.

(** ** cqlToGoType *)

(** The [switch cqlType] of cqlToGoType: the case labels with the value each
    case returns, in source order. *)
Definition scalarCases : list (list string * string) :=
  [ (["uuid"; "time.uuid"], "gocql.UUID");
    (["boolean"], "bool");
    (["text"; "varchar"], "string");
    (["int"], "int");
    (["bigint"], "int64");
    (["tinyint"], "int8");
    (["smallint"], "int16");
    (["float"], "float32");
    (["double"], "float64");
    (["decimal"], "gocql.Decimal");
    (["timestamp"], "time.Time");
    (["date"], "gocql.Date");
    (["time"], "gocql.Time");
    (["blob"], "[]byte") ].

(** The first case one of whose labels equals the tag; [None] is [default]. *)
Fixpoint switch (cases : list (list string * string)) (tag : string)
  : option string :=
  match cases with
  | [] => None
  | (labels, value) :: cases' =>
      if existsb (String.eqb tag) labels then Some value else switch cases' tag
  end.

(** The reassignment on line 84. *)
Definition normalize (cqlType : string) : string := ToLower (TrimSpace cqlType).

(** What is left of cqlToGoType once no pattern matched. *)
Definition scalarToGoType (cqlType : string) : result string :=
  match switch scalarCases cqlType with
  | Some goType => Ok goType
  | None => Err (Sprintf "unknown CQL type: %s" [cqlType])
  end.

Definition inspect {A : Type} (a : A) : {b : A | a = b} := exist _ a eq_refl.

Section Termination.

Fixpoint sumLengths (l : list string) : nat :=
  match l with
  | [] => 0
  | s :: l' => String.length s + sumLengths l'
  end.

Fixpoint literals (p : regexp) : nat :=
  match p with
  | [] => 0
  | Lit _ :: p' => S (literals p')
  | DotPlus :: p' => literals p'
  end.

Lemma dotPlus_length k s g caps n :
  (forall s' caps', k s' = Some caps' -> sumLengths caps' + n = String.length s') ->
  dotPlus k s = Some (g, caps) ->
  String.length g + sumLengths caps + n = String.length s.
Proof.
  intros Hk. revert g caps.
  induction s as [|c s IH]; intros g caps; simpl; [discriminate|].
  destruct (dot c); [|discriminate].
  destruct (dotPlus k s) as [[g' caps']|] eqn:E.
  - intros [= <- <-]. simpl. specialize (IH _ _ eq_refl). lia.
  - destruct (k s) as [caps'|] eqn:E'; [|discriminate].
    intros [= <- <-]. simpl. apply Hk in E'. lia.
Qed.

(** The captures and the literals account for every byte of the subject. *)
Lemma matchItems_length p : forall s caps,
  matchItems p s = Some caps ->
  sumLengths caps + literals p = String.length s.
Proof.
  induction p as [|[c|] p IH]; intros s caps; simpl.
  - destruct s; [|discriminate]. intros [= <-]. reflexivity.
  - destruct s as [|d s]; [discriminate|].
    destruct (c =? d)%char; [|discriminate].
    intros H. apply IH in H. simpl. lia.
  - destruct (dotPlus (matchItems p) s) as [[g caps']|] eqn:E; [|discriminate].
    intros [= <-]. simpl.
    pose proof (dotPlus_length _ _ _ _ _ IH E). lia.
Qed.

Lemma index_length_le caps i :
  String.length (index caps i) <= sumLengths caps.
Proof.
  unfold index. revert i.
  induction caps as [|c caps IH]; intros [|j]; simpl; try lia.
  specialize (IH j). lia.
Qed.

Lemma ToLower_length s : String.length (ToLower s) = String.length s.
Proof. unfold ToLower. induction s; simpl; congruence. Qed.

Lemma TrimLeft_length s : String.length (TrimLeft s) <= String.length s.
Proof.
  induction s as [|c s IH]; simpl; [lia|].
  destruct (asciiSpace c); simpl; lia.
Qed.

Lemma TrimRight_length s : String.length (TrimRight s) <= String.length s.
Proof.
  induction s as [|c s IH]; simpl; [lia|].
  destruct (TrimRight s); [destruct (asciiSpace c)|]; simpl in *; lia.
Qed.

Lemma normalize_length s : String.length (normalize s) <= String.length s.
Proof.
  unfold normalize, TrimSpace. rewrite ToLower_length.
  pose proof (TrimRight_length (TrimLeft s)).
  pose proof (TrimLeft_length s). lia.
Qed.

(** A submatch of a pattern with a literal is shorter than the subject. *)
Lemma submatch_shorter re s matches i cqlType :
  (forall p, re = Some p -> 0 < literals p) ->
  FindStringSubmatch re (normalize cqlType) = s ->
  s = Some matches ->
  String.length (index matches (S i)) < String.length cqlType.
Proof.
  intros Hlit <- H. destruct re as [p|]; [|discriminate].
  unfold FindStringSubmatch in H.
  destruct (matchItems p (normalize cqlType)) as [caps|] eqn:E; [|discriminate].
  injection H as <-. unfold index. simpl.
  pose proof (matchItems_length _ _ _ E).
  pose proof (index_length_le caps i). unfold index in *.
  pose proof (normalize_length cqlType).
  specialize (Hlit p eq_refl). lia.
Qed.

End Termination.

#[local] Opaque FindStringSubmatch mapPattern listPattern setPattern normalize.

Equations? cqlToGoType (cqlType : string) : result string
  by wf (String.length cqlType) lt :=
  cqlToGoType cqlType with inspect (FindStringSubmatch mapPattern (normalize cqlType)) := {
    | exist _ (Some matches) _ with cqlToGoType (index matches 1) := {
        | Err err := Err err
        | Ok goKeyType with cqlToGoType (index matches 2) := {
            | Err err := Err err
            | Ok goValueType := Ok (Sprintf "map[%s]%s" [goKeyType; goValueType]) } }
    | exist _ None _ with inspect (FindStringSubmatch listPattern (normalize cqlType)) := {
        | exist _ (Some matches) _ with cqlToGoType (index matches 1) := {
            | Err err := Err err
            | Ok goElemType := Ok (Sprintf "[]%s" [goElemType]) }
        | exist _ None _ with inspect (FindStringSubmatch setPattern (normalize cqlType)) := {
            | exist _ (Some matches) _ with cqlToGoType (index matches 1) := {
                | Err err := Err err
                | Ok goElemType := Ok (Sprintf "map[%s]struct{}" [goElemType]) }
            | exist _ None _ := scalarToGoType (normalize cqlType) } } }.
Proof.
  all: eapply submatch_shorter; [|reflexivity|eassumption];
    intros p [= <-]; vm_compute; lia.
Qed.

#[local] Transparent FindStringSubmatch mapPattern listPattern setPattern normalize.

(** The body of cqlToGoType, lines 84 to 157, with the recursive calls
    folded back. *)
Lemma cqlToGoType_eq cqlType :
  cqlToGoType cqlType =
  let cqlType := normalize cqlType in
  match FindStringSubmatch mapPattern cqlType with
  | Some matches =>
      match cqlToGoType (index matches 1) with
      | Err err => Err err
      | Ok goKeyType =>
          match cqlToGoType (index matches 2) with
          | Err err => Err err
          | Ok goValueType => Ok (Sprintf "map[%s]%s" [goKeyType; goValueType])
          end
      end
  | None =>
      match FindStringSubmatch listPattern cqlType with
      | Some matches =>
          match cqlToGoType (index matches 1) with
          | Err err => Err err
          | Ok goElemType => Ok (Sprintf "[]%s" [goElemType])
          end
      | None =>
          match FindStringSubmatch setPattern cqlType with
          | Some matches =>
              match cqlToGoType (index matches 1) with
              | Err err => Err err
              | Ok goElemType => Ok (Sprintf "map[%s]struct{}" [goElemType])
              end
          | None => scalarToGoType cqlType
          end
      end
  end.
Proof.
  cbv zeta.
  funelim (cqlToGoType cqlType).
  all: repeat match goal with
       | H : ?l = Some _ |- context [?l] => rewrite H
       | H : ?l = None |- context [?l] => rewrite H
       | H : ?l = Ok _ |- context [?l] => rewrite H
       | H : ?l = Err _ |- context [?l] => rewrite H
       end; reflexivity.
Qed.

(** ** Identifiers *)

Module Unicode.

(** [unicode.ToUpper] on the runes a byte converts to (0 to 255): the
    ASCII letters, and the Latin-1 entries of the case tables (micro sign
    to U+039C, a-grave to thorn except the division sign, y-diaeresis to
    U+0178). *)
Definition ToUpper (r : nat) : nat :=
  if (97 <=? r) && (r <=? 122) then r - 32
  else if r =? 181 then 924
  else if ((224 <=? r) && (r <=? 246)) || ((248 <=? r) && (r <=? 254)) then r - 32
  else if r =? 255 then 376
  else r.

(** [string(r)]: the UTF-8 encoding of a rune below U+0800. *)
Definition encodeRune (r : nat) : string :=
  if r <? 128 then String (ascii_of_nat r) EmptyString
  else String (ascii_of_nat (192 + r / 64))
         (String (ascii_of_nat (128 + r mod 64)) EmptyString).

End Unicode.

Module strcase.

(** The package's table of acronyms, as it is initialised. *)
Definition uppercaseAcronym : list (string * string) := [("ID", "id")].

Fixpoint Load (table : list (string * string)) (s : string) : option string :=
  match table with
  | [] => None
  | (k, v) :: table' => if String.eqb k s then Some v else Load table' s
  end.

Definition isSeparator (v : ascii) : bool :=
  (v =? "_")%char || (v =? " ")%char || (v =? "-")%char || (v =? ".")%char.

(** The byte loop of [toCamelInitCase]; [first] is [i == 0]. *)
Fixpoint camelLoop (hasAcronym capNext prevIsCap first : bool) (s : string)
  : string :=
  match s with
  | EmptyString => EmptyString
  | String v s' =>
      let vIsCap := isUpperByte v in
      let vIsLow := isLowerByte v in
      let v' :=
        if capNext then (if vIsLow then upperByte v else v)
        else if first then (if vIsCap then lowerByte v else v)
        else if prevIsCap && vIsCap && negb hasAcronym then lowerByte v
        else v in
      if vIsCap || vIsLow then
        String v' (camelLoop hasAcronym false vIsCap false s')
      else if isDigitByte v then
        String v' (camelLoop hasAcronym true vIsCap false s')
      else camelLoop hasAcronym (isSeparator v) vIsCap false s'
  end.

(** [strcase.ToCamel] of the imported package github.com/iancoleman/strcase,
    whose source is not part of the repository: a transcription of the
    package's function ([toCamelInitCase] with [initCase] true), not of
    the FieldNamer contract of the specification, which the package does
    not meet (it returns the empty string on a name without letter or
    digit and prepends nothing to a leading digit).  Letters and digits
    are kept, every other byte is dropped, the letter after a separator or
    a digit is upper-cased, and an upper-case letter that follows one is
    lower-cased.  [TrimSpace] is the ASCII path, so the transcription
    holds for ASCII names.  It serves the concrete tables only: every
    general statement below takes the transform as a parameter. *)
Definition ToCamel (s : string) : string :=
  let s := TrimSpace s in
  match s with
  | EmptyString => s
  | _ =>
      match Load uppercaseAcronym s with
      | Some a => camelLoop true true false true a
      | None => camelLoop false true false true s
      end
  end.

End strcase.

(** The newline and the double quote. *)
Definition LF : string := String "010"%char EmptyString.
Definition DQ : string := String "034"%char EmptyString.

(** The format of a field line: four spaces, [%s %s], a back-quoted json tag
    holding [%s] between double quotes, and a newline. *)
Definition fieldFormat : string :=
  "    %s %s `json:" +:+ DQ +:+ "%s" +:+ DQ +:+ "`" +:+ LF.

Definition headerFormat : string := "type %s struct {" +:+ LF.

(** The text the two formats print: a field line with its identifier, Go
    type and json tag, and the opening line of a struct. *)
Definition fieldLine (ident goType column : string) : string :=
  "    " +:+ ident +:+ " " +:+ goType +:+
  " `json:" +:+ DQ +:+ column +:+ DQ +:+ "`" +:+ LF.

Definition headerLine (name : string) : string :=
  "type " +:+ name +:+ " struct {" +:+ LF.

Definition joinLines (lines : list string) : string :=
  foldr String.append EmptyString lines.

(** ** The catalog session *)

(** What the session answers to the two queries: the rows the iterator
    scans, or the error [iter.Close] reports. *)
Record Session : Type := {
  tableRows : string -> result (list string);
  columnRows : string -> string -> result (list (string * string))
}.

Definition fetchTableNames (session : Session) (keyspace : string)
  : result (list string) :=
  match tableRows session keyspace with
  | Err err => Err err
  | Ok rows => Ok (foldl (fun tableNames tableName => tableNames ++ [tableName]) [] rows)
  end.

(** [columns[columnName] = columnType] for each scanned row. *)
Definition scanColumns (rows : list (string * string)) : gmap string string :=
  foldl (fun columns row => <[row.1 := row.2]> columns) ∅ rows.

Definition fetchColumnDefinitions (session : Session) (keyspace tableName : string)
  : result (gmap string string) :=
  match columnRows session keyspace tableName with
  | Err err => Err err
  | Ok rows => Ok (scanColumns rows)
  end.

(** ** Struct generation *)

Section Generator.

(** The identifier transform of the imported package. *)
Variable ToCamel : string -> string.

(** [camel[0]] panics on the empty string. *)
Definition toPascal (value : string) : outcome string :=
  match ToCamel value with
  | EmptyString =>
      Panicked "runtime error: index out of range [0] with length 0"
  | String c rest =>
      Returned (Unicode.encodeRune (Unicode.ToUpper (byte c)) +:+ rest)
  end.

(** The loop of lines 69 to 77 over the columns in the order the range
    statement visits them. *)
Fixpoint rangeColumns (order : list (string * string)) (structDefinition : string)
  : result string :=
  match order with
  | [] => Ok structDefinition
  | (column, cqlType) :: order' =>
      match cqlToGoType cqlType with
      | Err err => Err err
      | Ok goType =>
          rangeColumns order'
            (structDefinition +:+ Sprintf fieldFormat [ToCamel column; goType; column])
      end
  end.

Definition generateGoStructIn (tableName : string) (order : list (string * string))
  : outcome (result string) :=
  match toPascal tableName with
  | Panicked msg => Panicked msg
  | Returned name =>
      match rangeColumns order (Sprintf headerFormat [name]) with
      | Err err => Returned (Err err)
      | Ok structDefinition => Returned (Ok (structDefinition +:+ "}" +:+ LF))
      end
  end.

(** Ranging over a Go map visits its entries in an order the runtime
    picks anew at each loop: any permutation of the entries. *)
Definition generateGoStruct (tableName : string) (columns : gmap string string)
    (out : outcome (result string)) : Prop :=
  exists order : list (string * string),
    order ≡ₚ map_to_list columns /\ generateGoStructIn tableName order = out.

(** [line] is the field line of the column [col], whose type maps. *)
Definition lineOf (col : string * string) (line : string) : Prop :=
  exists goType, cqlToGoType col.2 = Ok goType /\
                 line = fieldLine (ToCamel col.1) goType col.1.

(** *** The table loop of main, lines 193 to 208 *)

Record loopState : Type := {
  structDefinitions : list string;
  logged : list string
}.

Definition logFetchError (st : loopState) (tableName err : string) : loopState :=
  {| structDefinitions := structDefinitions st;
     logged := logged st ++
       [Sprintf "Error fetching column definitions for table %s: %v" [tableName; err]] |}.

Definition appendStruct (st : loopState) (structDef : string) : loopState :=
  {| structDefinitions := structDefinitions st ++ [structDef];
     logged := logged st |}.

Inductive tableLoop (session : Session) (keyspace : string)
  : list string -> loopState -> outcome loopState -> Prop :=
| loop_end st :
    tableLoop session keyspace [] st (Returned st)
| loop_continue tableName rest st err out :
    fetchColumnDefinitions session keyspace tableName = Err err ->
    tableLoop session keyspace rest (logFetchError st tableName err) out ->
    tableLoop session keyspace (tableName :: rest) st out
| loop_index_panic tableName rest st columns msg :
    fetchColumnDefinitions session keyspace tableName = Ok columns ->
    generateGoStruct tableName columns (Panicked msg) ->
    tableLoop session keyspace (tableName :: rest) st (Panicked msg)
| loop_panic tableName rest st columns err :
    fetchColumnDefinitions session keyspace tableName = Ok columns ->
    generateGoStruct tableName columns (Returned (Err err)) ->
    tableLoop session keyspace (tableName :: rest) st (Panicked err)
| loop_append tableName rest st columns structDef out :
    fetchColumnDefinitions session keyspace tableName = Ok columns ->
    generateGoStruct tableName columns (Returned (Ok structDef)) ->
    tableLoop session keyspace rest (appendStruct st structDef) out ->
    tableLoop session keyspace (tableName :: rest) st out.

(** The text main hands to [file.WriteString] once the loop is over, lines
    228 to 237: the package line, then each struct definition.  It is
    written from offset 0 of a file opened without truncation, so it is
    the written text, not the whole content of a file that existed and
    was longer. *)
Definition fileContent (st : loopState) : string :=
  foldl String.append ("package main" +:+ LF) (structDefinitions st).

(** Lines 188 to 208 of main together with the text of lines 228 to 237,
    when the table query succeeds: the panic of the loop, or the text main
    goes on to write and the log.  The calls to the operating system in
    between (MkdirAll, OpenFile, WriteString) and their error paths are
    not part of it, nor is the exit of log.Fatalf on an error of the
    table query, for which the relation has no outcome. *)
Inductive run (session : Session) (keyspace : string)
  : outcome (string * list string) -> Prop :=
| run_panic tableNames msg :
    fetchTableNames session keyspace = Ok tableNames ->
    tableLoop session keyspace tableNames
      {| structDefinitions := []; logged := [] |} (Panicked msg) ->
    run session keyspace (Panicked msg)
| run_written tableNames st :
    fetchTableNames session keyspace = Ok tableNames ->
    tableLoop session keyspace tableNames
      {| structDefinitions := []; logged := [] |} (Returned st) ->
    run session keyspace (Returned (fileContent st, logged st)).

End Generator.

(** ** Two keyspaces *)

(** A keyspace with the tables metrics and users; the column hits of
    metrics has the catalog type counter, for which the switch has no case. *)
Definition counterSession : Session :=
  {| tableRows := fun _ => Ok ["metrics"; "users"];
     columnRows := fun _ tableName =>
       if String.eqb tableName "metrics" then Ok [("hits", "counter")]
       else Ok [("id", "uuid")] |}.

(** The same keyspace when the column query on metrics fails. *)
Definition failingSession : Session :=
  {| tableRows := fun _ => Ok ["metrics"; "users"];
     columnRows := fun _ tableName =>
       if String.eqb tableName "metrics" then Err "gocql: no response received"
       else Ok [("id", "uuid")] |}.

(** ** The type grammar as the specification words it *)

Module Spec.

(** The scalar kinds of the glossary. *)
Inductive ScalarKind : Type :=
| Boolean | Text | Int32 | Int64 | Int8 | Int16 | Float32 | Float64
| Decimal | Timestamp | Date | Time | Blob | UUID.

Inductive TypeDescriptor : Type :=
| Scalar (kind : ScalarKind)
| ListOf (elem : TypeDescriptor)
| SetOf (elem : TypeDescriptor)
| MapOf (key value : TypeDescriptor).

(** The catalog's name of each kind: the fixed scalar set. *)
Definition scalarName (kind : ScalarKind) : string :=
  match kind with
  | Boolean => "boolean" | Text => "text" | Int32 => "int" | Int64 => "bigint"
  | Int8 => "tinyint" | Int16 => "smallint" | Float32 => "float"
  | Float64 => "double" | Decimal => "decimal" | Timestamp => "timestamp"
  | Date => "date" | Time => "time" | Blob => "blob" | UUID => "uuid"
  end.

Definition kinds : list ScalarKind :=
  [Boolean; Text; Int32; Int64; Int8; Int16; Float32; Float64;
   Decimal; Timestamp; Date; Time; Blob; UUID].

Definition fixedScalarSet : list string := map scalarName kinds.

(** The type string of a descriptor, by the grammar of section 4.1, with
    the catalog's comma and space between a map's key and value. *)
Fixpoint render (d : TypeDescriptor) : string :=
  match d with
  | Scalar kind => scalarName kind
  | ListOf elem => "list<" +:+ render elem +:+ ">"
  | SetOf elem => "set<" +:+ render elem +:+ ">"
  | MapOf key value => "map<" +:+ render key +:+ ", " +:+ render value +:+ ">"
  end.

(** The Go type a descriptor stands for in the generated text. *)
Definition scalarGoType (kind : ScalarKind) : string :=
  match kind with
  | Boolean => "bool" | Text => "string" | Int32 => "int" | Int64 => "int64"
  | Int8 => "int8" | Int16 => "int16" | Float32 => "float32"
  | Float64 => "float64" | Decimal => "gocql.Decimal"
  | Timestamp => "time.Time" | Date => "gocql.Date" | Time => "gocql.Time"
  | Blob => "[]byte" | UUID => "gocql.UUID"
  end.

Fixpoint goType (d : TypeDescriptor) : string :=
  match d with
  | Scalar kind => scalarGoType kind
  | ListOf elem => "[]" +:+ goType elem
  | SetOf elem => "map[" +:+ goType elem +:+ "]struct{}"
  | MapOf key value => "map[" +:+ goType key +:+ "]" +:+ goType value
  end.

Fixpoint depth (d : TypeDescriptor) : nat :=
  match d with
  | Scalar _ => 0
  | ListOf elem | SetOf elem => S (depth elem)
  | MapOf key value => S (Nat.max (depth key) (depth value))
  end.

(** No map anywhere in the descriptor. *)
Fixpoint mapFree (d : TypeDescriptor) : bool :=
  match d with
  | Scalar _ => true
  | ListOf elem | SetOf elem => mapFree elem
  | MapOf _ _ => false
  end.

(** No map inside the value of a map. *)
Fixpoint flatValues (d : TypeDescriptor) : bool :=
  match d with
  | Scalar _ => true
  | ListOf elem | SetOf elem => flatValues elem
  | MapOf key value => flatValues key && mapFree value
  end.

Fixpoint allSpace (s : string) : bool :=
  match s with
  | EmptyString => true
  | String c s' => asciiSpace c && allSpace s'
  end.

(** [token] is [name] in some letter case, between runs of white space. *)
Definition variant (name token : string) : Prop :=
  exists l v r, token = l +:+ v +:+ r /\
                allSpace l = true /\ allSpace r = true /\
                mapBytes lowerByte v = name.

End Spec.
Import Spec.

(** The unknown-type error of line 156. *)
Definition UnknownTypeError (cqlType : string) : string :=
  "unknown CQL type: " +:+ cqlType.

(** The entries of the switch: a label with the value of its case. *)
Definition scalarEntry (name goType : string) : Prop :=
  exists labels, In (labels, goType) scalarCases /\ In name labels.

Definition noCollectionPattern (cqlType : string) : Prop :=
  FindStringSubmatch mapPattern cqlType = None /\
  FindStringSubmatch listPattern cqlType = None /\
  FindStringSubmatch setPattern cqlType = None.

(** ** Notions the further properties are stated with *)

(** A pattern item that accepts no newline. *)
Definition dotLiteral (i : item) : bool :=
  match i with
  | Lit c => dot c
  | DotPlus => true
  end.

(** The message of the panic of [camel[0]] on the empty string. *)
Definition indexPanic : string :=
  "runtime error: index out of range [0] with length 0".

(** The log line of a table whose column query fails, and whether the
    query succeeds. *)
Definition fetchErrorLine (session : Session) (keyspace tableName : string)
  : option string :=
  match fetchColumnDefinitions session keyspace tableName with
  | Err err =>
      Some (Sprintf "Error fetching column definitions for table %s: %v"
              [tableName; err])
  | Ok _ => None
  end.

Definition fetched (session : Session) (keyspace tableName : string) : bool :=
  match fetchColumnDefinitions session keyspace tableName with
  | Ok _ => true
  | Err _ => false
  end.

(** [def] is a struct text generated for the table, whose columns were
    fetched. *)
Definition generatedFor (ToCamel : string -> string) (session : Session)
    (keyspace tableName def : string) : Prop :=
  exists columns,
    fetchColumnDefinitions session keyspace tableName = Ok columns /\
    generateGoStruct ToCamel tableName columns (Returned (Ok def)).



(** The line generateGoStruct writes for a column whose type maps. *)
Definition writtenLine (ToCamel : string -> string) (col : string * string)
  : string :=
  match cqlToGoType col.2 with
  | Ok goType => fieldLine (ToCamel col.1) goType col.1
  | Err _ => EmptyString
  end.

(** The keyspace of the two tables when every column query fails. *)
Definition unreachableSession : Session :=
  {| tableRows := fun _ => Ok ["metrics"; "users"];
     columnRows := fun _ _ => Err "gocql: no response received" |}.

(** * Properties *)

(** ** Strings *)

Lemma append_nil_r (s : string) : s +:+ EmptyString = s.
Proof. induction s; simpl; congruence. Qed.

Lemma append_assoc (s t u : string) : (s +:+ t) +:+ u = s +:+ (t +:+ u).
Proof. induction s; simpl; congruence. Qed.

Lemma Sprintf_unknown (cqlType : string) :
  Sprintf "unknown CQL type: %s" [cqlType] = UnknownTypeError cqlType.
Proof. unfold UnknownTypeError. simpl. rewrite append_nil_r. reflexivity. Qed.

Lemma asciiSpace_lowerByte (c : ascii) : asciiSpace (lowerByte c) = asciiSpace c.
Proof. destruct c as [[] [] [] [] [] [] [] []]; reflexivity. Qed.

Lemma TrimLeft_mapBytes (s : string) :
  TrimLeft (mapBytes lowerByte s) = mapBytes lowerByte (TrimLeft s).
Proof.
  induction s as [|c s IH]; simpl; [reflexivity|].
  rewrite asciiSpace_lowerByte. destruct (asciiSpace c); [exact IH|reflexivity].
Qed.

Lemma TrimRight_mapBytes (s : string) :
  TrimRight (mapBytes lowerByte s) = mapBytes lowerByte (TrimRight s).
Proof.
  induction s as [|c s IH]; simpl; [reflexivity|].
  rewrite IH, asciiSpace_lowerByte.
  destruct (TrimRight s); simpl; [destruct (asciiSpace c)|]; reflexivity.
Qed.

(** Lower-casing and trimming commute. *)
Lemma TrimSpace_ToLower (s : string) :
  TrimSpace (ToLower s) = ToLower (TrimSpace s).
Proof.
  unfold TrimSpace, ToLower. rewrite TrimLeft_mapBytes. apply TrimRight_mapBytes.
Qed.

Lemma TrimLeft_spaces (l s : string) :
  allSpace l = true -> TrimLeft (l +:+ s) = TrimLeft s.
Proof.
  induction l as [|c l IH]; simpl; [reflexivity|].
  intros [-> Hl]%andb_true_iff. auto.
Qed.

Lemma TrimRight_all_space (r : string) :
  allSpace r = true -> TrimRight r = EmptyString.
Proof.
  induction r as [|c r IH]; simpl; [reflexivity|].
  intros [-> Hr]%andb_true_iff. rewrite IH by assumption. reflexivity.
Qed.

Lemma TrimRight_spaces (s r : string) :
  allSpace r = true -> TrimRight (s +:+ r) = TrimRight s.
Proof.
  intros Hr. induction s as [|c s IH]; simpl.
  - apply TrimRight_all_space, Hr.
  - rewrite IH. reflexivity.
Qed.

Lemma TrimLeft_app (v r : string) :
  TrimLeft v <> EmptyString -> TrimLeft (v +:+ r) = TrimLeft v +:+ r.
Proof.
  induction v as [|c v IH]; simpl; [congruence|].
  destruct (asciiSpace c); [exact IH|reflexivity].
Qed.

Lemma TrimLeft_empty (v r : string) :
  allSpace r = true -> TrimLeft v = EmptyString ->
  TrimLeft (v +:+ r) = TrimLeft r.
Proof.
  intros Hr. induction v as [|c v IH]; simpl; [reflexivity|].
  destruct (asciiSpace c); [exact IH|discriminate].
Qed.

Lemma TrimLeft_all_space (r : string) :
  allSpace r = true -> TrimLeft r = EmptyString.
Proof.
  induction r as [|c r IH]; simpl; [reflexivity|].
  intros [-> Hr]%andb_true_iff. auto.
Qed.

(** Padding with white space is invisible to TrimSpace. *)
Lemma TrimSpace_pad (l v r : string) :
  allSpace l = true -> allSpace r = true ->
  TrimSpace (l +:+ v +:+ r) = TrimSpace v.
Proof.
  intros Hl Hr. unfold TrimSpace. rewrite TrimLeft_spaces by assumption.
  destruct (TrimLeft v) eqn:E.
  - rewrite TrimLeft_empty, TrimLeft_all_space by assumption. reflexivity.
  - rewrite TrimLeft_app by congruence. rewrite E.
    apply TrimRight_spaces, Hr.
Qed.

Lemma TrimLeft_split (s : string) :
  exists l, allSpace l = true /\ s = l +:+ TrimLeft s.
Proof.
  induction s as [|c s [l [Hl IH]]]; simpl.
  - exists EmptyString. split; reflexivity.
  - destruct (asciiSpace c) eqn:E.
    + exists (String c l). simpl. rewrite E, Hl. split; [reflexivity|congruence].
    + exists EmptyString. split; reflexivity.
Qed.

Lemma TrimRight_split (s : string) :
  exists r, allSpace r = true /\ s = TrimRight s +:+ r.
Proof.
  induction s as [|c s [r [Hr IH]]]; simpl.
  - exists EmptyString. split; reflexivity.
  - destruct (TrimRight s) eqn:E.
    + destruct (asciiSpace c) eqn:Ec.
      * exists (String c r). simpl in *. rewrite Ec, Hr. split; [reflexivity|congruence].
      * exists r. simpl in *. split; [assumption|congruence].
    + exists r. simpl in *. split; [assumption|congruence].
Qed.

(** A string is its trimmed form between two runs of white space. *)
Lemma TrimSpace_split (s : string) :
  exists l r, allSpace l = true /\ allSpace r = true /\
              s = l +:+ TrimSpace s +:+ r.
Proof.
  destruct (TrimLeft_split s) as [l [Hl El]].
  destruct (TrimRight_split (TrimLeft s)) as [r [Hr Er]].
  exists l, r. unfold TrimSpace. repeat split; try assumption.
  rewrite <- Er. exact El.
Qed.

(** A token is a variant of the name it normalises to. *)
Lemma variant_normalize (token : string) : variant (normalize token) token.
Proof.
  destruct (TrimSpace_split token) as [l [r [Hl [Hr E]]]].
  exists l, (TrimSpace token), r. repeat split; assumption.
Qed.

(** A variant of a name that trimming leaves alone normalises to it. *)
Lemma normalize_variant (name token : string) :
  TrimSpace name = name -> variant name token -> normalize token = name.
Proof.
  intros Hname (l & v & r & -> & Hl & Hr & Hv).
  unfold normalize. rewrite TrimSpace_pad by assumption.
  rewrite <- TrimSpace_ToLower. unfold ToLower. rewrite Hv. exact Hname.
Qed.

(** cqlToGoType sees its argument only through its normal form. *)
Lemma cqlToGoType_normal (s t : string) :
  normalize s = normalize t -> cqlToGoType s = cqlToGoType t.
Proof.
  intros E. rewrite (cqlToGoType_eq s), (cqlToGoType_eq t). cbv zeta.
  rewrite E. reflexivity.
Qed.

Lemma switch_Some cases tag goType :
  switch cases tag = Some goType ->
  exists labels, In (labels, goType) cases /\ In tag labels.
Proof.
  induction cases as [|[labels value] cases IH]; simpl; [discriminate|].
  destruct (existsb (String.eqb tag) labels) eqn:E.
  - intros [= <-]. exists labels. split; [left; reflexivity|].
    apply existsb_exists in E as (x & Hx & Heq).
    apply String.eqb_eq in Heq. subst. assumption.
  - intros H. destruct (IH H) as (l & Hin & Ht). exists l. split; [right|]; assumption.
Qed.

(** Every label of the switch: trimming leaves it alone, no pattern matches
    it, and the switch returns its case's value. *)
Lemma scalarEntry_facts name goType :
  scalarEntry name goType ->
  TrimSpace name = name /\ noCollectionPattern name /\
  scalarToGoType name = Ok goType.
Proof.
  intros (labels & Hin & Hname). unfold scalarCases in Hin. simpl in Hin.
  repeat (destruct Hin as [[= <- <-]|Hin];
    [simpl in Hname;
     repeat (destruct Hname as [<-|Hname];
       [repeat split; vm_compute; reflexivity|]); contradiction|]).
  contradiction.
Qed.

Lemma cqlToGoType_scalar token :
  noCollectionPattern (normalize token) ->
  cqlToGoType token = scalarToGoType (normalize token).
Proof.
  intros (Hm & Hl & Hs). rewrite cqlToGoType_eq. cbv zeta.
  rewrite Hm, Hl, Hs. reflexivity.
Qed.

(** ** The type mapper *)

(** C1, at the claim's own input: the greedy first group of the map pattern
    runs to the last comma of [map<text, map<int, int>>], so the key is
    taken to be [text, map<int] and the value [ int>]; the key matches no
    rule and the call fails with the unknown-type error instead of
    returning the Go type of Map(text, Map(int, int)). *)
Theorem nested_map_value_splits_at_last_comma :
  FindStringSubmatch mapPattern "map<text, map<int, int>>"
    = Some ["map<text, map<int, int>>"; "text, map<int"; " int>"] /\
  cqlToGoType "map<text, map<int, int>>"
    = Err (UnknownTypeError "text, map<int") /\
  goType (MapOf (Scalar Text) (MapOf (Scalar Int32) (Scalar Int32)))
    = "map[string]map[int]int".
Proof. repeat split; vm_compute; reflexivity. Qed.

(** A map nested in the key is split where the grammar says. *)
Example nested_map_key :
  cqlToGoType "map<map<int, int>, text>" = Ok "map[map[int]int]string".
Proof. vm_compute. reflexivity. Qed.

Lemma fixedScalarSet_trimmed name :
  In name fixedScalarSet -> TrimSpace name = name.
Proof.
  unfold fixedScalarSet, kinds. simpl. intros H.
  repeat (destruct H as [<-|H]; [reflexivity|]). contradiction.
Qed.

(** C3 as stated fails at [varchar]: the token is no variant of a name of
    the fixed scalar set and matches no collection pattern, yet the mapper
    returns a type for it. *)
Lemma varchar_outside_fixed_set :
  (forall name, In name fixedScalarSet -> ~ variant name "varchar") /\
  noCollectionPattern (normalize "varchar") /\
  cqlToGoType "varchar" = Ok "string".
Proof.
  split; [|repeat split; vm_compute; reflexivity].
  intros name Hin Hv.
  apply (normalize_variant _ _ (fixedScalarSet_trimmed _ Hin)) in Hv. subst name.
  vm_compute in Hin. intuition discriminate.
Qed.

(** C3, amended: for every case and white-space variant of a label of the
    switch (the fourteen scalar names and the synonyms varchar and
    time.uuid) the mapper returns the value of the label's case; and every
    ASCII token that is a variant of no label and whose normal form matches
    no collection pattern fails with the unknown-type error on that normal
    form: there is no default type. *)
Theorem scalar_lookup (token : string) :
  (forall name goType,
      scalarEntry name goType -> variant name token ->
      cqlToGoType token = Ok goType) /\
  (isASCII token = true ->
   (forall name goType, scalarEntry name goType -> ~ variant name token) ->
   noCollectionPattern (normalize token) ->
   cqlToGoType token = Err (UnknownTypeError (normalize token))).
Proof.
  split.
  - intros name goType He Hv.
    destruct (scalarEntry_facts _ _ He) as (Ht & Hp & Hs).
    apply (normalize_variant _ _ Ht) in Hv.
    rewrite cqlToGoType_scalar; rewrite Hv; assumption.
  - intros _ Hnone Hp. rewrite cqlToGoType_scalar by assumption.
    unfold scalarToGoType.
    destruct (switch scalarCases (normalize token)) as [goType|] eqn:E.
    + apply switch_Some in E as (labels & Hin & Hl).
      exfalso. apply (Hnone (normalize token) goType).
      * exists labels. split; assumption.
      * apply variant_normalize.
    + rewrite Sprintf_unknown. reflexivity.
Qed.

Lemma scalar_lookup_witness :
  cqlToGoType "  TimeStamp " = Ok "time.Time" /\
  cqlToGoType "int32" = Err (UnknownTypeError "int32").
Proof.
  split.
  - apply (proj1 (scalar_lookup "  TimeStamp ") "timestamp" "time.Time").
    + exists ["timestamp"]. split; simpl; auto 20.
    + exists "  ", "TimeStamp", " ". repeat split; reflexivity.
  - apply (proj2 (scalar_lookup "int32")).
    + reflexivity.
    + intros name goType He Hv.
      destruct (scalarEntry_facts _ _ He) as (Ht & _ & Hs).
      apply (normalize_variant _ _ Ht) in Hv. subst name.
      vm_compute in Hs. discriminate.
    + repeat split; vm_compute; reflexivity.
Defined.

(** C9: every token whose normal form is [varchar] maps to the Go type of
    [text], [string], although varchar is no name of the fixed scalar set. *)
Theorem varchar_synonym_of_text (token : string) :
  normalize token = "varchar" ->
  cqlToGoType token = Ok "string" /\
  cqlToGoType token = cqlToGoType "text" /\
  ~ In "varchar" fixedScalarSet.
Proof.
  intros E.
  assert (cqlToGoType token = cqlToGoType "varchar") as ->
    by (apply cqlToGoType_normal; rewrite E; reflexivity).
  repeat split; try (vm_compute; reflexivity).
  vm_compute. intuition discriminate.
Qed.

Lemma varchar_synonym_of_text_witness :
  cqlToGoType " VarChar " = Ok "string" /\
  cqlToGoType " VarChar " = cqlToGoType "text" /\
  ~ In "varchar" fixedScalarSet.
Proof. apply (varchar_synonym_of_text " VarChar "). reflexivity. Defined.

(** C10: the token [time.uuid] is a label of the UUID case and maps to
    gocql.UUID; the token [timeuuid] matches no pattern and no label and
    fails with the unknown-type error. *)
Theorem time_dot_uuid_is_the_label :
  cqlToGoType "time.uuid" = Ok "gocql.UUID" /\
  noCollectionPattern (normalize "timeuuid") /\
  switch scalarCases (normalize "timeuuid") = None /\
  cqlToGoType "timeuuid" = Err (UnknownTypeError "timeuuid").
Proof. repeat split; vm_compute; reflexivity. Qed.

(** ** Struct generation *)

Lemma Sprintf_fieldFormat ident goType column :
  Sprintf fieldFormat [ident; goType; column] = fieldLine ident goType column.
Proof. reflexivity. Qed.

Lemma Sprintf_headerFormat name :
  Sprintf headerFormat [name] = headerLine name.
Proof. reflexivity. Qed.

Section GeneratorProperties.

Variable ToCamel : string -> string.

Lemma rangeColumns_Ok order : forall acc text,
  rangeColumns ToCamel order acc = Ok text ->
  exists lines, Forall2 (lineOf ToCamel) order lines /\ text = acc +:+ joinLines lines.
Proof.
  induction order as [|[column cqlType] order IH]; cbn [rangeColumns];
    intros acc text.
  - intros [= <-]. exists []. split; [constructor|].
    simpl. rewrite append_nil_r. reflexivity.
  - destruct (cqlToGoType cqlType) as [goType|err] eqn:E; [|discriminate].
    intros H. apply IH in H as (lines & Hl & ->).
    exists (fieldLine (ToCamel column) goType column :: lines). split.
    + constructor; [|assumption]. exists goType. split; [assumption|reflexivity].
    + rewrite Sprintf_fieldFormat, append_assoc. reflexivity.
Qed.

Lemma rangeColumns_total order : forall acc,
  Forall (fun col => exists goType, cqlToGoType col.2 = Ok goType) order ->
  exists text, rangeColumns ToCamel order acc = Ok text.
Proof.
  induction order as [|[column cqlType] order IH]; cbn [rangeColumns];
    intros acc H.
  - eexists. reflexivity.
  - inversion H as [|? ? [goType E] Hrest]; subst. simpl in E. rewrite E.
    apply IH, Hrest.
Qed.

(** What a successful generation over a visiting order returns. *)
Lemma generateGoStructIn_Ok tableName order text :
  generateGoStructIn ToCamel tableName order = Returned (Ok text) ->
  exists name lines,
    toPascal ToCamel tableName = Returned name /\
    Forall2 (lineOf ToCamel) order lines /\
    text = headerLine name +:+ joinLines lines +:+ "}" +:+ LF.
Proof.
  unfold generateGoStructIn.
  destruct (toPascal ToCamel tableName) as [name|msg]; [|discriminate].
  destruct (rangeColumns ToCamel order (Sprintf headerFormat [name]))
    as [structDefinition|err] eqn:E; [|discriminate].
  intros [= <-]. apply rangeColumns_Ok in E as (lines & Hl & ->).
  exists name, lines. rewrite Sprintf_headerFormat, append_assoc. auto.
Qed.

(** Generation succeeds as soon as the name is not empty and the types map. *)
Lemma generateGoStructIn_total tableName name order :
  toPascal ToCamel tableName = Returned name ->
  Forall (fun col => exists goType, cqlToGoType col.2 = Ok goType) order ->
  exists text, generateGoStructIn ToCamel tableName order = Returned (Ok text).
Proof.
  intros Hn Ht. unfold generateGoStructIn. rewrite Hn.
  destruct (rangeColumns_total order (Sprintf headerFormat [name]) Ht) as [t ->].
  eexists. reflexivity.
Qed.

Lemma Forall2_lineOf_tag order lines :
  Forall2 (lineOf ToCamel) order lines ->
  Forall2 (fun col line =>
             exists ident goType, line = fieldLine ident goType col.1)
          order lines.
Proof.
  induction 1 as [|col line order lines (goType & _ & ->) _ IH]; constructor.
  - exists (ToCamel col.1), goType. reflexivity.
  - exact IH.
Qed.

(** C4: whatever the identifier transform, each generated struct text is
    the opening line, one field line per entry of the column map and the
    closing brace, and the line of an entry is made of that entry alone:
    the transform of its column name, the Go type of its column type, and,
    as json tag, its column name byte for byte. *)
Theorem tag_is_column_name tableName (columns : gmap string string) text :
  generateGoStruct ToCamel tableName columns (Returned (Ok text)) ->
  exists name order lines,
    toPascal ToCamel tableName = Returned name /\
    order ≡ₚ map_to_list columns /\
    text = headerLine name +:+ joinLines lines +:+ "}" +:+ LF /\
    Forall2 (fun col line =>
               exists goType,
                 cqlToGoType col.2 = Ok goType /\
                 line = "    " +:+ ToCamel col.1 +:+ " " +:+ goType +:+
                        " `json:" +:+ DQ +:+ col.1 +:+ DQ +:+ "`" +:+ LF)
            order lines.
Proof.
  intros (order & Hperm & H).
  apply generateGoStructIn_Ok in H as (name & lines & Hn & Hl & ->).
  exists name, order, lines. repeat split; assumption.
Qed.

(** C6, amended: assembly reports no identifier conflict.  When the table
    name camel-cases to a non-empty string and every column type maps,
    every generation of the table returns a struct text, with one field
    line per column of the map, each line made from its own column:
    columns that share an identifier are all emitted. *)
Theorem no_conflict_is_reported tableName name (columns : gmap string string) out :
  toPascal ToCamel tableName = Returned name ->
  (forall column cqlType,
      columns !! column = Some cqlType ->
      exists goType, cqlToGoType cqlType = Ok goType) ->
  generateGoStruct ToCamel tableName columns out ->
  exists order lines,
    order ≡ₚ map_to_list columns /\
    length lines = size columns /\
    Forall2 (lineOf ToCamel) order lines /\
    out = Returned (Ok (headerLine name +:+ joinLines lines +:+ "}" +:+ LF)).
Proof.
  intros Hn Ht (order & Hperm & H).
  assert (Forall (fun col => exists goType, cqlToGoType col.2 = Ok goType) order)
    as Hall.
  { apply Forall_forall. intros [column cqlType] Hin. simpl.
    apply (Ht column). apply elem_of_map_to_list.
    rewrite <- Hperm. exact Hin. }
  destruct (generateGoStructIn_total _ _ _ Hn Hall) as [text Htext].
  rewrite Htext in H. subst out.
  apply generateGoStructIn_Ok in Htext as (name' & lines & Hn' & Hl & ->).
  rewrite Hn in Hn'. injection Hn' as <-.
  exists order, lines. repeat split; try assumption.
  rewrite <- (Forall2_length _ _ _ Hl), Hperm. apply length_map_to_list.
Qed.

Lemma joinLines_app (l1 l2 : list string) :
  joinLines (l1 ++ l2) = joinLines l1 +:+ joinLines l2.
Proof.
  induction l1 as [|line l1 IH]; simpl; [reflexivity|].
  rewrite IH, append_assoc. reflexivity.
Qed.

(** The line of a column of the table, with the lines before and after. *)
Lemma generateGoStruct_line tableName (columns : gmap string string) text
    column cqlType :
  generateGoStruct ToCamel tableName columns (Returned (Ok text)) ->
  columns !! column = Some cqlType ->
  exists name goType lines1 lines2,
    toPascal ToCamel tableName = Returned name /\
    cqlToGoType cqlType = Ok goType /\
    text = headerLine name +:+ joinLines lines1 +:+
           fieldLine (ToCamel column) goType column +:+
           joinLines lines2 +:+ "}" +:+ LF.
Proof.
  intros (order & Hperm & H) Hl.
  apply generateGoStructIn_Ok in H as (name & lines & Hn & Hlines & ->).
  assert (In (column, cqlType) order) as Hin.
  { apply list_elem_of_In. rewrite Hperm. apply elem_of_map_to_list, Hl. }
  apply in_split in Hin as (o1 & o2 & ->).
  apply Forall2_app_inv_l in Hlines as (l1 & l2' & _ & H2 & ->).
  apply Forall2_cons_inv_l in H2 as (line & l2 & (goType & Hg & ->) & _ & ->).
  exists name, goType, l1, l2. repeat split; try assumption.
  cbn [fst snd]. rewrite joinLines_app.
  change (joinLines (fieldLine (ToCamel column) goType column :: l2))
    with (fieldLine (ToCamel column) goType column +:+ joinLines l2).
  rewrite !append_assoc. reflexivity.
Qed.

(** C7, amended: the code adds nothing to the camel-casing, no prefix and
    no guard.  In every generated struct the identifier of a column's field
    line is the camel-cased column name as it is, empty or digit-leading
    when that is; and whenever toPascal returns, its result is not empty:
    it is the camel-cased name with its first byte, taken as a rune,
    upper-cased, so when that byte is an ASCII byte other than a lower-case
    letter (a digit, say) the result is the camel-cased name itself. *)
Theorem identifiers_are_camel_case_unprefixed :
  (forall tableName (columns : gmap string string) text column cqlType,
      generateGoStruct ToCamel tableName columns (Returned (Ok text)) ->
      columns !! column = Some cqlType ->
      exists name goType lines1 lines2,
        cqlToGoType cqlType = Ok goType /\
        text = headerLine name +:+ joinLines lines1 +:+
               ("    " +:+ ToCamel column +:+ " " +:+ goType +:+
                " `json:" +:+ DQ +:+ column +:+ DQ +:+ "`" +:+ LF) +:+
               joinLines lines2 +:+ "}" +:+ LF) /\
  (forall value pascal,
      toPascal ToCamel value = Returned pascal ->
      pascal <> EmptyString /\
      exists c rest,
        ToCamel value = String c rest /\
        pascal = Unicode.encodeRune (Unicode.ToUpper (byte c)) +:+ rest /\
        (isASCIIByte c = true -> isLowerByte c = false ->
         pascal = ToCamel value)).
Proof.
  split.
  - intros tableName columns text column cqlType Hg Hl.
    destruct (generateGoStruct_line _ _ _ _ _ Hg Hl)
      as (name & goType & l1 & l2 & _ & Ht & ->).
    exists name, goType, l1, l2. split; [exact Ht|reflexivity].
  - intros value pascal. unfold toPascal.
    destruct (ToCamel value) as [|c rest]; [discriminate|].
    intros [= <-]. split.
    + unfold Unicode.encodeRune. destruct (_ <? 128); discriminate.
    + exists c, rest. repeat split.
      destruct c as [[] [] [] [] [] [] [] []]; intros Ha Hl;
        try discriminate Ha; try discriminate Hl; reflexivity.
Qed.

End GeneratorProperties.

(** ** Concrete tables *)

Lemma scan_one column cqlType :
  map_to_list (scanColumns [(column, cqlType)]) = [(column, cqlType)].
Proof.
  unfold scanColumns. simpl. rewrite insert_empty. apply map_to_list_singleton.
Qed.

Lemma scan_two c1 t1 c2 t2 :
  c1 <> c2 ->
  map_to_list (scanColumns [(c1, t1); (c2, t2)]) ≡ₚ [(c2, t2); (c1, t1)].
Proof.
  intros Hne. unfold scanColumns. simpl.
  rewrite map_to_list_insert.
  - rewrite map_to_list_insert by apply lookup_empty.
    rewrite map_to_list_empty. reflexivity.
  - rewrite lookup_insert_ne by assumption. apply lookup_empty.
Qed.

Lemma tag_is_column_name_witness :
  exists name order lines,
    toPascal strcase.ToCamel "users" = Returned name /\
    order ≡ₚ map_to_list (scanColumns [("user_id", "int"); ("name", "text")]) /\
    headerLine "Users" +:+ fieldLine "UserId" "int" "user_id" +:+
      fieldLine "Name" "string" "name" +:+ "}" +:+ LF
      = headerLine name +:+ joinLines lines +:+ "}" +:+ LF /\
    Forall2 (fun col line =>
               exists goType,
                 cqlToGoType col.2 = Ok goType /\
                 line = "    " +:+ strcase.ToCamel col.1 +:+ " " +:+ goType +:+
                        " `json:" +:+ DQ +:+ col.1 +:+ DQ +:+ "`" +:+ LF)
            order lines.
Proof.
  apply (tag_is_column_name strcase.ToCamel "users").
  exists [("user_id", "int"); ("name", "text")]. split.
  - rewrite scan_two by discriminate. apply Permutation_swap.
  - vm_compute. reflexivity.
Defined.

(** C5, on a table with the columns id and name: the range over the column
    map may visit id first or name first, so the same column set has two
    generations whose struct texts differ. *)
Theorem field_order_follows_map_iteration :
  let columns := scanColumns [("id", "uuid"); ("name", "text")] in
  let idFirst := headerLine "Users" +:+ fieldLine "Id" "gocql.UUID" "id" +:+
                 fieldLine "Name" "string" "name" +:+ "}" +:+ LF in
  let nameFirst := headerLine "Users" +:+ fieldLine "Name" "string" "name" +:+
                   fieldLine "Id" "gocql.UUID" "id" +:+ "}" +:+ LF in
  generateGoStruct strcase.ToCamel "users" columns (Returned (Ok idFirst)) /\
  generateGoStruct strcase.ToCamel "users" columns (Returned (Ok nameFirst)) /\
  idFirst <> nameFirst.
Proof.
  cbv zeta. repeat split.
  - exists [("id", "uuid"); ("name", "text")]. split.
    + rewrite scan_two by discriminate. apply Permutation_swap.
    + vm_compute. reflexivity.
  - exists [("name", "text"); ("id", "uuid")]. split.
    + rewrite scan_two by discriminate. reflexivity.
    + vm_compute. reflexivity.
  - vm_compute. discriminate.
Qed.

(** C6 as stated fails on the columns user_id and user-id: both transform
    to UserId, and every generation of the table returns a struct text, one
    of them with the two lines below; none fails. *)
Lemma colliding_columns_are_both_emitted :
  let columns := scanColumns [("user_id", "int"); ("user-id", "text")] in
  strcase.ToCamel "user_id" = strcase.ToCamel "user-id" /\
  generateGoStruct strcase.ToCamel "users" columns
    (Returned (Ok (headerLine "Users" +:+ fieldLine "UserId" "string" "user-id" +:+
                   fieldLine "UserId" "int" "user_id" +:+ "}" +:+ LF))) /\
  (forall out, generateGoStruct strcase.ToCamel "users" columns out ->
               exists text, out = Returned (Ok text)).
Proof.
  cbv zeta. repeat split.
  - exists [("user-id", "text"); ("user_id", "int")]. split.
    + rewrite scan_two by discriminate. reflexivity.
    + vm_compute. reflexivity.
  - intros out (order & Hperm & <-).
    apply (generateGoStructIn_total _ _ "Users"); [reflexivity|].
    rewrite scan_two in Hperm by discriminate. rewrite Hperm.
    repeat constructor; eexists; vm_compute; reflexivity.
Qed.

Lemma no_conflict_is_reported_witness :
  exists order lines,
    order ≡ₚ map_to_list (scanColumns [("user_id", "int"); ("user-id", "text")]) /\
    length lines = size (scanColumns [("user_id", "int"); ("user-id", "text")]) /\
    Forall2 (lineOf strcase.ToCamel) order lines /\
    generateGoStructIn strcase.ToCamel "users" [("user_id", "int"); ("user-id", "text")]
      = Returned (Ok (headerLine "Users" +:+ joinLines lines +:+ "}" +:+ LF)).
Proof.
  apply (no_conflict_is_reported strcase.ToCamel "users" "Users").
  - reflexivity.
  - intros column cqlType H. apply elem_of_map_to_list in H.
    rewrite scan_two in H by discriminate.
    apply list_elem_of_In in H. simpl in H.
    destruct H as [[= <- <-]|[[= <- <-]|[]]]; eexists; vm_compute; reflexivity.
  - exists [("user_id", "int"); ("user-id", "text")]. split.
    + rewrite scan_two by discriminate. apply Permutation_swap.
    + reflexivity.
Defined.

(** C7 as stated fails: the package's ToCamel turns the column name [_]
    into the empty identifier, which generateGoStruct writes as it is, and
    the name [1] into [1], which toPascal returns with nothing prepended. *)
Lemma identifier_empty_or_leading_digit :
  strcase.ToCamel "_" = EmptyString /\
  generateGoStructIn strcase.ToCamel "t" [("_", "int")]
    = Returned (Ok (headerLine "T" +:+ fieldLine EmptyString "int" "_" +:+ "}" +:+ LF)) /\
  strcase.ToCamel "1" = "1" /\
  toPascal strcase.ToCamel "1" = Returned "1".
Proof. repeat split; vm_compute; reflexivity. Qed.

Lemma identifiers_are_camel_case_unprefixed_witness :
  (exists name goType lines1 lines2,
      cqlToGoType "int" = Ok goType /\
      headerLine "T" +:+ fieldLine EmptyString "int" "_" +:+ "}" +:+ LF
        = headerLine name +:+ joinLines lines1 +:+
          ("    " +:+ strcase.ToCamel "_" +:+ " " +:+ goType +:+
           " `json:" +:+ DQ +:+ "_" +:+ DQ +:+ "`" +:+ LF) +:+
          joinLines lines2 +:+ "}" +:+ LF) /\
  ("1" <> EmptyString /\
   exists c rest,
     strcase.ToCamel "1" = String c rest /\
     "1" = Unicode.encodeRune (Unicode.ToUpper (byte c)) +:+ rest /\
     (isASCIIByte c = true -> isLowerByte c = false -> "1" = strcase.ToCamel "1")).
Proof.
  split.
  - apply (proj1 (identifiers_are_camel_case_unprefixed strcase.ToCamel)
             "t" (scanColumns [("_", "int")]) _ "_" "int").
    + exists [("_", "int")]. split.
      * rewrite scan_one. reflexivity.
      * vm_compute. reflexivity.
    + unfold scanColumns. simpl. apply lookup_insert_eq.
  - apply (proj2 (identifiers_are_camel_case_unprefixed strcase.ToCamel) "1" "1").
    reflexivity.
Defined.

(** ** The table loop *)

Lemma generateGoStruct_one ToCamel tableName column cqlType out :
  generateGoStruct ToCamel tableName (scanColumns [(column, cqlType)]) out <->
  generateGoStructIn ToCamel tableName [(column, cqlType)] = out.
Proof.
  unfold generateGoStruct. rewrite scan_one. split.
  - intros (order & Hperm & H). apply Permutation_singleton_r in Hperm.
    subst order. exact H.
  - intros H. exists [(column, cqlType)]. split; [reflexivity|exact H].
Qed.

(** C2, on a keyspace whose first table has a column of the unmapped type
    counter: the run panics with the unknown-type error, on every
    execution, so the struct of the sibling table users is never written. *)
Theorem unmapped_type_panics_the_run :
  run strcase.ToCamel counterSession "ks" (Panicked (UnknownTypeError "counter")) /\
  (forall out, run strcase.ToCamel counterSession "ks" out ->
               out = Panicked (UnknownTypeError "counter")).
Proof.
  split.
  - apply (run_panic _ _ _ ["metrics"; "users"]); [reflexivity|].
    apply (loop_panic _ _ _ _ _ _ (scanColumns [("hits", "counter")]));
      [reflexivity|].
    apply generateGoStruct_one. vm_compute. reflexivity.
  - assert (forall st out,
        tableLoop strcase.ToCamel counterSession "ks" ["metrics"; "users"] st out ->
        out = Panicked (UnknownTypeError "counter")) as Hloop.
    { intros st out H. inversion H as
        [|? ? ? ? ? Hf|? ? ? ? ? Hf Hg|? ? ? ? ? Hf Hg|? ? ? ? ? ? Hf Hg]; subst.
      - discriminate Hf.
      - injection Hf as <-. apply generateGoStruct_one in Hg. discriminate Hg.
      - injection Hf as <-. apply generateGoStruct_one in Hg.
        vm_compute in Hg. injection Hg as <-. reflexivity.
      - injection Hf as <-. apply generateGoStruct_one in Hg. discriminate Hg. }
    intros out H. inversion H as [names msg Hn Hl|names st Hn Hl]; subst;
      injection Hn as <-; apply Hloop in Hl.
    + congruence.
    + discriminate Hl.
Qed.

(** The sibling path: an error of the column query is logged and the loop
    goes on to the next table. *)
Example fetch_error_is_skipped :
  run strcase.ToCamel failingSession "ks"
    (Returned
       ("package main" +:+ LF +:+
        headerLine "Users" +:+ fieldLine "Id" "gocql.UUID" "id" +:+ "}" +:+ LF,
        ["Error fetching column definitions for table metrics: gocql: no response received"])).
Proof.
  apply (run_written _ _ _ ["metrics"; "users"]
           {| structDefinitions :=
                [headerLine "Users" +:+ fieldLine "Id" "gocql.UUID" "id" +:+ "}" +:+ LF];
              logged := ["Error fetching column definitions for table metrics: gocql: no response received"] |});
    [reflexivity|].
  eapply loop_continue; [reflexivity|].
  eapply (loop_append _ _ _ _ _ _ (scanColumns [("id", "uuid")])); [reflexivity| |].
  - apply generateGoStruct_one. vm_compute. reflexivity.
  - apply loop_end.
Qed.

(** ** The round trip of the type grammar *)

Lemma allBytes_app P s t :
  allBytes P (s +:+ t) = allBytes P s && allBytes P t.
Proof.
  induction s as [|c s IH]; simpl; [reflexivity|].
  rewrite IH, andb_assoc. reflexivity.
Qed.

(** Nothing after the run of the group lets the continuation in. *)
Lemma dotPlus_take k a s caps :
  a <> EmptyString -> allBytes dot a = true ->
  dotPlus k s = None -> k s = Some caps ->
  dotPlus k (a +:+ s) = Some (a, caps).
Proof.
  intros Ha Hdot Hnone Hk. induction a as [|c a IH]; [congruence|].
  simpl in Hdot. apply andb_true_iff in Hdot as [Hc Hdot].
  simpl. rewrite Hc. destruct a as [|c' a].
  - simpl. rewrite Hnone, Hk. reflexivity.
  - rewrite IH by (assumption || discriminate). reflexivity.
Qed.

(** A continuation that starts with a literal fails where the literal does
    not occur. *)
Lemma dotPlus_no_literal c p s d :
  allBytes (differs c) s = true ->
  dotPlus (matchItems (Lit c :: p)) (String d s) = None.
Proof.
  revert d. induction s as [|e s IH]; intros d Hs; simpl.
  - destruct (dot d); reflexivity.
  - simpl in Hs. apply andb_true_iff in Hs as [He Hs].
    specialize (IH e Hs). simpl in IH. rewrite IH.
    unfold differs in He. apply negb_true_iff in He. rewrite He.
    destruct (dot d); reflexivity.
Qed.

Lemma mapPattern_items :
  mapPattern = Some [Lit "m"; Lit "a"; Lit "p"; Lit "<"; DotPlus; Lit ","; DotPlus; Lit ">"]%char.
Proof. reflexivity. Qed.

Lemma listPattern_items :
  listPattern = Some [Lit "l"; Lit "i"; Lit "s"; Lit "t"; Lit "<"; DotPlus; Lit ">"]%char.
Proof. reflexivity. Qed.

Lemma setPattern_items :
  setPattern = Some [Lit "s"; Lit "e"; Lit "t"; Lit "<"; DotPlus; Lit ">"]%char.
Proof. reflexivity. Qed.

Lemma matchItems_Lit c p s :
  matchItems (Lit c :: p) (String c s) = matchItems p s.
Proof. simpl. rewrite Ascii.eqb_refl. reflexivity. Qed.

Lemma matchItems_DotPlus p s :
  matchItems (DotPlus :: p) s =
  match dotPlus (matchItems p) s with
  | Some (g, caps) => Some (g :: caps)
  | None => None
  end.
Proof. reflexivity. Qed.

Lemma match_closing a :
  a <> EmptyString -> allBytes dot a = true ->
  matchItems [DotPlus; Lit ">"%char] (a +:+ ">") = Some [a].
Proof.
  intros Ha Hdot. rewrite matchItems_DotPlus.
  rewrite (dotPlus_take _ a ">" []) by (assumption || reflexivity).
  reflexivity.
Qed.

Lemma match_map key value :
  key <> EmptyString -> allBytes dot key = true ->
  value <> EmptyString -> allBytes dot value = true ->
  allBytes (differs ",") value = true ->
  FindStringSubmatch mapPattern ("map<" +:+ key +:+ "," +:+ value +:+ ">")
    = Some ["map<" +:+ key +:+ "," +:+ value +:+ ">"; key; value].
Proof.
  intros Hk Hkd Hv Hvd Hvc. rewrite mapPattern_items.
  unfold FindStringSubmatch.
  change ("map<" +:+ key +:+ "," +:+ value +:+ ">")
    with (String "m" (String "a" (String "p" (String "<"
            (key +:+ String "," (value +:+ ">")))))) at 2.
  rewrite !matchItems_Lit, matchItems_DotPlus.
  rewrite (dotPlus_take _ key _ [value]); try assumption.
  - reflexivity.
  - apply dotPlus_no_literal. rewrite allBytes_app, Hvc. reflexivity.
  - rewrite matchItems_Lit, match_closing by assumption. reflexivity.
Qed.

Lemma match_list elem :
  elem <> EmptyString -> allBytes dot elem = true ->
  FindStringSubmatch mapPattern ("list<" +:+ elem +:+ ">") = None /\
  FindStringSubmatch listPattern ("list<" +:+ elem +:+ ">")
    = Some ["list<" +:+ elem +:+ ">"; elem].
Proof.
  intros He Hd. split; [reflexivity|].
  rewrite listPattern_items. unfold FindStringSubmatch.
  change ("list<" +:+ elem +:+ ">")
    with (String "l" (String "i" (String "s" (String "t" (String "<"
            (elem +:+ ">")))))) at 2.
  rewrite !matchItems_Lit, match_closing by assumption. reflexivity.
Qed.

Lemma match_set elem :
  elem <> EmptyString -> allBytes dot elem = true ->
  FindStringSubmatch mapPattern ("set<" +:+ elem +:+ ">") = None /\
  FindStringSubmatch listPattern ("set<" +:+ elem +:+ ">") = None /\
  FindStringSubmatch setPattern ("set<" +:+ elem +:+ ">")
    = Some ["set<" +:+ elem +:+ ">"; elem].
Proof.
  intros He Hd. split; [reflexivity|]. split; [reflexivity|].
  rewrite setPattern_items. unfold FindStringSubmatch.
  change ("set<" +:+ elem +:+ ">")
    with (String "s" (String "e" (String "t" (String "<" (elem +:+ ">"))))) at 2.
  rewrite !matchItems_Lit, match_closing by assumption. reflexivity.
Qed.


(** *** Rendered type strings are in normal form *)

Lemma ToLower_plain s : allBytes plainByte s = true -> ToLower s = s.
Proof.
  unfold ToLower. induction s as [|c s IH]; simpl; [reflexivity|].
  intros [Hc Hs]%andb_true_iff. rewrite IH by assumption.
  unfold plainByte in Hc. apply andb_true_iff in Hc as [_ Hc].
  unfold lowerByte. apply negb_true_iff in Hc. rewrite Hc. reflexivity.
Qed.

Lemma allBytes_dot_plain s : allBytes plainByte s = true -> allBytes dot s = true.
Proof.
  induction s as [|c s IH]; simpl; [reflexivity|].
  intros [Hc Hs]%andb_true_iff. rewrite IH by assumption.
  unfold plainByte in Hc. apply andb_true_iff in Hc as [-> _]. reflexivity.
Qed.

Lemma TrimRight_end s c :
  asciiSpace c = false ->
  TrimRight (s +:+ String c EmptyString) = s +:+ String c EmptyString.
Proof.
  intros Hc. induction s as [|d s IH]; simpl.
  - rewrite Hc. reflexivity.
  - rewrite IH. destruct s; reflexivity.
Qed.

(** A string between two bytes that are no white space is trimmed already. *)
Lemma TrimSpace_wrapped c s e :
  asciiSpace c = false -> asciiSpace e = false ->
  TrimSpace (String c (s +:+ String e EmptyString))
    = String c (s +:+ String e EmptyString).
Proof.
  intros Hc He. unfold TrimSpace. simpl. rewrite Hc.
  apply (TrimRight_end (String c s) e He).
Qed.

Lemma render_plain d : allBytes plainByte (render d) = true.
Proof.
  induction d as [[]|e IH|e IH|k IHk v IHv]; try reflexivity;
    do 2 (simpl; rewrite ?allBytes_app, ?IH, ?IHk, ?IHv); reflexivity.
Qed.

Lemma render_nonempty d : render d <> EmptyString.
Proof. destruct d as [[]| | |]; discriminate. Qed.

Lemma render_trimmed d : TrimSpace (render d) = render d.
Proof.
  destruct d as [[]|e|e|k v]; try reflexivity.
  - apply (TrimSpace_wrapped "l" ("ist<" +:+ render e) ">"); reflexivity.
  - apply (TrimSpace_wrapped "s" ("et<" +:+ render e) ">"); reflexivity.
  - change (render (MapOf k v))
      with (String "m" ("ap<" +:+ render k +:+ ", " +:+ render v +:+ ">")).
    replace ("ap<" +:+ render k +:+ ", " +:+ render v +:+ ">")
      with (("ap<" +:+ render k +:+ ", " +:+ render v) +:+ ">")
      by (simpl; rewrite !append_assoc; reflexivity).
    apply TrimSpace_wrapped; reflexivity.
Qed.

Lemma render_normal d : normalize (render d) = render d.
Proof.
  unfold normalize. rewrite render_trimmed. apply ToLower_plain, render_plain.
Qed.

Lemma render_no_comma d :
  mapFree d = true ->
  allBytes (differs ",") (render d) = true.
Proof.
  induction d as [[]|e IH|e IH|k IHk v IHv]; try reflexivity; simpl;
    try discriminate; intros H; rewrite ?allBytes_app, IH by assumption;
    reflexivity.
Qed.

Lemma mapFree_flatValues d : mapFree d = true -> flatValues d = true.
Proof. induction d; simpl; auto; discriminate. Qed.

(** The grammar round-trips on the descriptors that hold no map inside a
    map's value: the type string of such a descriptor maps to its Go type. *)
Lemma roundtrip_flat_values d :
  flatValues d = true -> cqlToGoType (render d) = Ok (goType d).
Proof.
  induction d as [kind|e IH|e IH|k IHk v IHv]; intros Hflat.
  - destruct kind; vm_compute; reflexivity.
  - rewrite cqlToGoType_eq. cbv zeta. rewrite render_normal. cbn [render].
    destruct (match_list (render e)) as [-> ->];
      [apply render_nonempty|apply allBytes_dot_plain, render_plain|].
    change (index _ 1) with (render e). rewrite (IH Hflat).
    simpl. rewrite append_nil_r. reflexivity.
  - rewrite cqlToGoType_eq. cbv zeta. rewrite render_normal. cbn [render].
    destruct (match_set (render e)) as (-> & -> & ->);
      [apply render_nonempty|apply allBytes_dot_plain, render_plain|].
    change (index _ 1) with (render e). rewrite (IH Hflat). reflexivity.
  - simpl in Hflat. apply andb_true_iff in Hflat as [Hk Hv].
    rewrite cqlToGoType_eq. cbv zeta. rewrite render_normal.
    change (render (MapOf k v))
      with ("map<" +:+ render k +:+ "," +:+ (" " +:+ render v) +:+ ">").
    rewrite match_map.
    + change (index _ 1) with (render k).
      change (index _ 2) with (" " +:+ render v).
      rewrite (IHk Hk).
      rewrite (cqlToGoType_normal (" " +:+ render v) (render v)).
      * rewrite (IHv (mapFree_flatValues _ Hv)).
        simpl. rewrite append_nil_r. reflexivity.
      * reflexivity.
    + apply render_nonempty.
    + apply allBytes_dot_plain, render_plain.
    + discriminate.
    + apply (allBytes_dot_plain (" " +:+ render v)). simpl. apply render_plain.
    + simpl. apply render_no_comma, Hv.
Qed.

(** Every descriptor of depth at most one is of that kind. *)
Lemma depth_one_flat d : depth d <= 1 -> flatValues d = true.
Proof.
  destruct d as [kind|e|e|k v]; simpl; intros H; try reflexivity.
  - destruct e; [reflexivity|simpl in H; lia..].
  - destruct e; [reflexivity|simpl in H; lia..].
  - destruct k; [|simpl in H; lia..]. destruct v; [reflexivity|simpl in H; lia..].
Qed.

(** C8, at a descriptor of depth two: the type string rendered from
    Map(text, Map(int, int)) does not map back to the descriptor's Go type;
    the mapper fails on it with the unknown-type error of the text before
    the last comma.  A map whose key is the nested map round-trips. *)
Theorem roundtrip_fails_on_map_in_value :
  let d := MapOf (Scalar Text) (MapOf (Scalar Int32) (Scalar Int32)) in
  depth d = 2 /\
  cqlToGoType (render d) = Err (UnknownTypeError "text, map<int") /\
  cqlToGoType (render d) <> Ok (goType d) /\
  cqlToGoType (render (MapOf (MapOf (Scalar Int32) (Scalar Int32)) (Scalar Text)))
    = Ok (goType (MapOf (MapOf (Scalar Int32) (Scalar Int32)) (Scalar Text))).
Proof. cbv zeta. repeat split; vm_compute; try reflexivity; discriminate. Qed.

(** In particular the grammar round-trips at nesting depth at most one. *)
Lemma roundtrip_depth_one d :
  depth d <= 1 -> cqlToGoType (render d) = Ok (goType d).
Proof. intros H. apply roundtrip_flat_values, depth_one_flat, H. Qed.

(** * Further properties of the type mapper *)

Lemma lowerByte_idem (c : ascii) : lowerByte (lowerByte c) = lowerByte c.
Proof. destruct c as [[] [] [] [] [] [] [] []]; reflexivity. Qed.

Lemma ToLower_idem (s : string) : ToLower (ToLower s) = ToLower s.
Proof.
  unfold ToLower. induction s as [|c s IH]; simpl; [reflexivity|].
  rewrite lowerByte_idem, IH. reflexivity.
Qed.



Lemma mapBytes_app f (s t : string) :
  mapBytes f (s +:+ t) = mapBytes f s +:+ mapBytes f t.
Proof. induction s as [|c s IH]; simpl; congruence. Qed.

Lemma dot_lowerByte (c : ascii) : dot (lowerByte c) = dot c.
Proof. destruct c as [[] [] [] [] [] [] [] []]; reflexivity. Qed.

Lemma differs_comma_lowerByte (c : ascii) :
  differs "," (lowerByte c) = differs "," c.
Proof. destruct c as [[] [] [] [] [] [] [] []]; reflexivity. Qed.

Lemma allBytes_ToLower P (s : string) :
  (forall c, P (lowerByte c) = P c) ->
  allBytes P (ToLower s) = allBytes P s.
Proof.
  intros HP. unfold ToLower. induction s as [|c s IH]; simpl; [reflexivity|].
  rewrite HP, IH. reflexivity.
Qed.

Lemma ToLower_nonempty (s : string) : s <> EmptyString -> ToLower s <> EmptyString.
Proof. destruct s; [congruence|discriminate]. Qed.

(** The mapper gives a token and its lower-cased form the same result. *)
Lemma cqlToGoType_ToLower (s : string) : cqlToGoType (ToLower s) = cqlToGoType s.
Proof.
  apply cqlToGoType_normal. unfold normalize.
  rewrite <- TrimSpace_ToLower, ToLower_idem, TrimSpace_ToLower. reflexivity.
Qed.

(** X1: the mapper is blind to letter case and to surrounding white space.
    Two ASCII tokens with the same lower-casing get the same result, also
    when one of them stands between runs of white space. *)
Theorem mapper_ignores_case_and_padding (l s t r : string) :
  isASCII s = true -> isASCII t = true ->
  allSpace l = true -> allSpace r = true ->
  ToLower s = ToLower t ->
  cqlToGoType (l +:+ s +:+ r) = cqlToGoType t.
Proof.
  intros _ _ Hl Hr E. apply cqlToGoType_normal. unfold normalize.
  rewrite TrimSpace_pad by assumption.
  rewrite <- !TrimSpace_ToLower, E. reflexivity.
Qed.

Lemma mapper_ignores_case_and_padding_witness :
  cqlToGoType ("  " +:+ "MAP<Text, INT>" +:+ " ") = cqlToGoType "map<text, int>".
Proof.
  apply (mapper_ignores_case_and_padding "  " "MAP<Text, INT>" "map<text, int>" " ");
    reflexivity.
Defined.

Lemma pattern_literals :
  (forall p, mapPattern = Some p -> 0 < literals p) /\
  (forall p, listPattern = Some p -> 0 < literals p) /\
  (forall p, setPattern = Some p -> 0 < literals p).
Proof. repeat split; intros p [= <-]; vm_compute; lia. Qed.



(** *** Newlines *)

Lemma dotPlus_dot k s g caps :
  (forall s' caps', k s' = Some caps' -> allBytes dot s' = true) ->
  dotPlus k s = Some (g, caps) -> allBytes dot s = true.
Proof.
  intros Hk. revert g caps. induction s as [|c s IH]; intros g caps; simpl;
    [discriminate|].
  destruct (dot c); [|discriminate]. simpl.
  destruct (dotPlus k s) as [[g' caps']|] eqn:E.
  - intros _. eapply IH. reflexivity.
  - destruct (k s) as [caps'|] eqn:E'; [|discriminate].
    intros _. eapply Hk, E'.
Qed.

(** A subject the patterns accept holds no newline. *)
Lemma matchItems_dot p : forall s caps,
  forallb dotLiteral p = true ->
  matchItems p s = Some caps -> allBytes dot s = true.
Proof.
  induction p as [|[c|] p IH]; intros s caps; simpl.
  - destruct s; [reflexivity|discriminate].
  - intros [Hc Hp]%andb_true_iff. destruct s as [|d s]; [discriminate|].
    destruct (Ascii.eqb_spec c d) as [<-|]; [|discriminate].
    intros H. simpl. rewrite Hc. eapply IH; eassumption.
  - intros Hp. destruct (dotPlus (matchItems p) s) as [[g caps']|] eqn:E;
      [|discriminate].
    intros _. eapply dotPlus_dot; [|exact E].
    intros s' caps'' H. eapply IH; eassumption.
Qed.

Lemma FindStringSubmatch_dot re s ms :
  (forall p, re = Some p -> forallb dotLiteral p = true) ->
  FindStringSubmatch re s = Some ms -> allBytes dot s = true.
Proof.
  intros Hre. destruct re as [p|]; [|discriminate]. unfold FindStringSubmatch.
  destruct (matchItems p s) as [caps|] eqn:E; [|discriminate].
  intros _. eapply matchItems_dot; [|exact E]. apply Hre. reflexivity.
Qed.

Lemma switch_label_dot tag goType :
  switch scalarCases tag = Some goType -> allBytes dot tag = true.
Proof.
  intros H. apply switch_Some in H as (labels & Hin & Htag).
  unfold scalarCases in Hin. simpl in Hin.
  repeat (destruct Hin as [[= <- <-]|Hin];
    [simpl in Htag;
     repeat (destruct Htag as [<-|Htag]; [reflexivity|]); contradiction|]).
  contradiction.
Qed.

(** X3: a type with a newline inside it is never accepted.  When the
    normal form of an ASCII token holds a newline, no pattern and no label
    matches and the mapper fails with the unknown-type error on the whole
    normal form, however well-formed the text around the newline is. *)
Theorem newline_is_never_accepted (cqlType : string) :
  isASCII cqlType = true ->
  allBytes dot (normalize cqlType) = false ->
  cqlToGoType cqlType = Err (UnknownTypeError (normalize cqlType)).
Proof.
  intros _ Hnl.
  assert (forall re, (forall p, re = Some p -> forallb dotLiteral p = true) ->
                     FindStringSubmatch re (normalize cqlType) = None) as Hno.
  { intros re Hre.
    destruct (FindStringSubmatch re (normalize cqlType)) as [ms|] eqn:E;
      [|reflexivity].
    apply (FindStringSubmatch_dot _ _ _ Hre) in E. congruence. }
  rewrite cqlToGoType_scalar.
  - unfold scalarToGoType.
    destruct (switch scalarCases (normalize cqlType)) as [g|] eqn:E.
    + apply switch_label_dot in E. congruence.
    + rewrite Sprintf_unknown. reflexivity.
  - repeat split; apply Hno; intros p [= <-]; reflexivity.
Qed.

Lemma newline_is_never_accepted_witness :
  cqlToGoType ("list<int" +:+ LF +:+ ">")
    = Err (UnknownTypeError (normalize ("list<int" +:+ LF +:+ ">"))).
Proof.
  apply (newline_is_never_accepted ("list<int" +:+ LF +:+ ">")); reflexivity.
Defined.

(** *** How the collection wrappers compose *)

Lemma normalize_wrapped c body e :
  asciiSpace c = false -> asciiSpace e = false ->
  normalize (String c (body +:+ String e EmptyString))
    = String (lowerByte c) (ToLower body +:+ String (lowerByte e) EmptyString).
Proof.
  intros Hc He. unfold normalize. rewrite TrimSpace_wrapped by assumption.
  unfold ToLower. simpl. rewrite mapBytes_app. reflexivity.
Qed.

Lemma normalize_list elem :
  normalize ("list<" +:+ elem +:+ ">") = "list<" +:+ ToLower elem +:+ ">".
Proof.
  change ("list<" +:+ elem +:+ ">") with (String "l" ("ist<" +:+ elem +:+ ">")).
  replace ("ist<" +:+ elem +:+ ">") with (("ist<" +:+ elem) +:+ ">")
    by (simpl; reflexivity).
  rewrite normalize_wrapped by reflexivity.
  unfold ToLower. rewrite mapBytes_app. reflexivity.
Qed.

Lemma normalize_set elem :
  normalize ("set<" +:+ elem +:+ ">") = "set<" +:+ ToLower elem +:+ ">".
Proof.
  change ("set<" +:+ elem +:+ ">") with (String "s" ("et<" +:+ elem +:+ ">")).
  replace ("et<" +:+ elem +:+ ">") with (("et<" +:+ elem) +:+ ">")
    by (simpl; reflexivity).
  rewrite normalize_wrapped by reflexivity.
  unfold ToLower. rewrite mapBytes_app. reflexivity.
Qed.

Lemma normalize_map key value :
  normalize ("map<" +:+ key +:+ "," +:+ value +:+ ">")
    = "map<" +:+ ToLower key +:+ "," +:+ ToLower value +:+ ">".
Proof.
  change ("map<" +:+ key +:+ "," +:+ value +:+ ">")
    with (String "m" ("ap<" +:+ key +:+ "," +:+ value +:+ ">")).
  replace ("ap<" +:+ key +:+ "," +:+ value +:+ ">")
    with (("ap<" +:+ key +:+ "," +:+ value) +:+ ">")
    by (simpl; rewrite !append_assoc; reflexivity).
  rewrite normalize_wrapped by reflexivity.
  unfold ToLower. rewrite !mapBytes_app. simpl.
  rewrite !append_assoc. reflexivity.
Qed.

(** X4: a list or set wrapper maps its body and wraps the result.  For
    every non-empty ASCII body without a newline, [list<body>] maps to the
    slice of the body's Go type and [set<body>] to the map from the body's
    Go type to the empty struct; when the body fails, the wrapper fails with
    the body's error. *)
Theorem list_and_set_wrap_their_body (elem : string) :
  isASCII elem = true -> elem <> EmptyString -> allBytes dot elem = true ->
  cqlToGoType ("list<" +:+ elem +:+ ">")
    = match cqlToGoType elem with
      | Ok goElemType => Ok ("[]" +:+ goElemType)
      | Err err => Err err
      end /\
  cqlToGoType ("set<" +:+ elem +:+ ">")
    = match cqlToGoType elem with
      | Ok goElemType => Ok ("map[" +:+ goElemType +:+ "]struct{}")
      | Err err => Err err
      end.
Proof.
  intros _ Hne Hdot.
  assert (ToLower elem <> EmptyString) as Hne' by (apply ToLower_nonempty, Hne).
  assert (allBytes dot (ToLower elem) = true) as Hdot'
    by (rewrite allBytes_ToLower; [assumption|apply dot_lowerByte]).
  split.
  - rewrite cqlToGoType_eq. cbv zeta. rewrite normalize_list.
    destruct (match_list (ToLower elem) Hne' Hdot') as [-> ->].
    change (index _ 1) with (ToLower elem). rewrite cqlToGoType_ToLower.
    destruct (cqlToGoType elem); [|reflexivity].
    simpl. rewrite append_nil_r. reflexivity.
  - rewrite cqlToGoType_eq. cbv zeta. rewrite normalize_set.
    destruct (match_set (ToLower elem) Hne' Hdot') as (-> & -> & ->).
    change (index _ 1) with (ToLower elem). rewrite cqlToGoType_ToLower.
    destruct (cqlToGoType elem); reflexivity.
Qed.

Lemma list_and_set_wrap_their_body_witness :
  cqlToGoType ("list<" +:+ "map<int, text>" +:+ ">")
    = match cqlToGoType "map<int, text>" with
      | Ok goElemType => Ok ("[]" +:+ goElemType)
      | Err err => Err err
      end /\
  cqlToGoType ("set<" +:+ "map<int, text>" +:+ ">")
    = match cqlToGoType "map<int, text>" with
      | Ok goElemType => Ok ("map[" +:+ goElemType +:+ "]struct{}")
      | Err err => Err err
      end.
Proof.
  apply (list_and_set_wrap_their_body "map<int, text>");
    [reflexivity|discriminate|reflexivity].
Defined.

(** X5: a map whose value text holds no comma maps key and value and joins
    the results, whatever commas the key holds; the key is mapped first, so
    when both fail the error is the key's. *)
Theorem map_joins_key_and_value (key value : string) :
  isASCII key = true -> isASCII value = true ->
  key <> EmptyString -> value <> EmptyString ->
  allBytes dot key = true -> allBytes dot value = true ->
  allBytes (differs ",") value = true ->
  cqlToGoType ("map<" +:+ key +:+ "," +:+ value +:+ ">")
    = match cqlToGoType key with
      | Err err => Err err
      | Ok goKeyType =>
          match cqlToGoType value with
          | Err err => Err err
          | Ok goValueType => Ok ("map[" +:+ goKeyType +:+ "]" +:+ goValueType)
          end
      end.
Proof.
  intros _ _ Hk Hv Hkd Hvd Hvc.
  rewrite cqlToGoType_eq. cbv zeta. rewrite normalize_map.
  rewrite match_map.
  - change (index _ 1) with (ToLower key).
    change (index _ 2) with (ToLower value).
    rewrite !cqlToGoType_ToLower.
    destruct (cqlToGoType key); [|reflexivity].
    destruct (cqlToGoType value); [|reflexivity].
    simpl. rewrite append_nil_r. reflexivity.
  - apply ToLower_nonempty, Hk.
  - rewrite allBytes_ToLower; [assumption|apply dot_lowerByte].
  - apply ToLower_nonempty, Hv.
  - rewrite allBytes_ToLower; [assumption|apply dot_lowerByte].
  - rewrite allBytes_ToLower; [assumption|apply differs_comma_lowerByte].
Qed.

Lemma map_joins_key_and_value_witness :
  cqlToGoType ("map<" +:+ "map<int, text>" +:+ "," +:+ " frozen" +:+ ">")
    = match cqlToGoType "map<int, text>" with
      | Err err => Err err
      | Ok goKeyType =>
          match cqlToGoType " frozen" with
          | Err err => Err err
          | Ok goValueType => Ok ("map[" +:+ goKeyType +:+ "]" +:+ goValueType)
          end
      end.
Proof.
  apply (map_joins_key_and_value "map<int, text>" " frozen");
    try reflexivity; discriminate.
Defined.

(** *** Where the map pattern splits *)

Lemma dotPlus_sound k s g caps :
  dotPlus k s = Some (g, caps) ->
  exists rest,
    s = g +:+ rest /\ g <> EmptyString /\ allBytes dot g = true /\
    k rest = Some caps /\ dotPlus k rest = None.
Proof.
  revert g caps. induction s as [|c s IH]; intros g caps; simpl; [discriminate|].
  destruct (dot c) eqn:Hc; [|discriminate].
  destruct (dotPlus k s) as [[g' caps']|] eqn:E.
  - intros [= <- <-]. destruct (IH _ _ eq_refl) as (rest & -> & Hg & Hd & Hk & Hn).
    exists rest. simpl. rewrite Hc, Hd. repeat split; try assumption. discriminate.
  - destruct (k s) as [caps'|] eqn:E'; [|discriminate].
    intros [= <- <-]. exists s. simpl. rewrite Hc.
    repeat split; try assumption. discriminate.
Qed.

Lemma dotPlus_complete k a s caps :
  a <> EmptyString -> allBytes dot a = true -> k s = Some caps ->
  dotPlus k (a +:+ s) <> None.
Proof.
  intros Ha Hdot Hk. induction a as [|c a IH]; [congruence|].
  simpl in Hdot. apply andb_true_iff in Hdot as [Hc Hdot].
  simpl. rewrite Hc. destruct a as [|c' a].
  - simpl. rewrite Hk. destruct (dotPlus k s) as [[]|]; discriminate.
  - specialize (IH ltac:(discriminate) Hdot).
    destruct (dotPlus k (String c' a +:+ s)) as [[]|]; [discriminate|congruence].
Qed.

Lemma matchItems_closing_sound s caps :
  matchItems [DotPlus; Lit ">"%char] s = Some caps ->
  exists v, caps = [v] /\ s = v +:+ ">" /\ v <> EmptyString /\ allBytes dot v = true.
Proof.
  rewrite matchItems_DotPlus.
  destruct (dotPlus (matchItems [Lit ">"%char]) s) as [[v caps']|] eqn:E;
    [|discriminate].
  intros [= <-]. apply dotPlus_sound in E as (rest & -> & Hv & Hd & Hk & _).
  destruct rest as [|d rest]; [discriminate Hk|]. cbn [matchItems] in Hk.
  destruct (Ascii.eqb_spec ">" d) as [<-|]; [|discriminate Hk].
  destruct rest; [|discriminate Hk]. injection Hk as <-.
  exists v. repeat split; assumption.
Qed.

(** X6: the map pattern splits at the last comma.  Whenever the pattern
    matches, the subject is [map<], the first submatch, a comma, the second
    submatch and [>]; neither submatch is empty or holds a newline; and the
    second holds no comma except possibly as its last byte: the key runs to
    the last comma that still leaves a value. *)
Theorem map_pattern_splits_at_last_comma (subject : string) (matches : list string) :
  FindStringSubmatch mapPattern subject = Some matches ->
  exists key value,
    matches = [subject; key; value] /\
    subject = "map<" +:+ key +:+ "," +:+ value +:+ ">" /\
    key <> EmptyString /\ value <> EmptyString /\
    allBytes dot key = true /\ allBytes dot value = true /\
    (forall before after, value = before +:+ "," +:+ after -> after = EmptyString).
Proof.
  rewrite mapPattern_items. unfold FindStringSubmatch.
  destruct (matchItems _ subject) as [caps|] eqn:E; [|discriminate].
  intros [= <-].
  destruct subject as [|c1 subject]; [discriminate E|]. cbn [matchItems] in E.
  destruct (Ascii.eqb_spec "m" c1) as [<-|]; [|discriminate E].
  destruct subject as [|c2 subject]; [discriminate E|]. cbn [matchItems] in E.
  destruct (Ascii.eqb_spec "a" c2) as [<-|]; [|discriminate E].
  destruct subject as [|c3 subject]; [discriminate E|]. cbn [matchItems] in E.
  destruct (Ascii.eqb_spec "p" c3) as [<-|]; [|discriminate E].
  destruct subject as [|c4 body]; [discriminate E|]. cbn [matchItems] in E.
  destruct (Ascii.eqb_spec "<" c4) as [<-|]; [|discriminate E].
  fold (matchItems [Lit ","; DotPlus; Lit ">"]%char) in E.
  destruct (dotPlus _ body) as [[key caps']|] eqn:Ed; [|discriminate E].
  injection E as <-.
  apply dotPlus_sound in Ed as (rest & -> & Hk & Hkd & Hrest & Hnone).
  destruct rest as [|d rest]; [discriminate Hrest|].
  destruct (Ascii.eqb_spec "," d) as [<-|Hd].
  2: { cbn [matchItems] in Hrest. apply Ascii.eqb_neq in Hd. rewrite Hd in Hrest.
       discriminate Hrest. }
  rewrite matchItems_Lit in Hrest.
  apply matchItems_closing_sound in Hrest as (value & -> & -> & Hv & Hvd).
  exists key, value. repeat split; try assumption.
  intros before after ->. destruct after as [|a after]; [reflexivity|].
  exfalso.
  rewrite !allBytes_app in Hvd. apply andb_true_iff in Hvd as [Hb Ha].
  apply (dotPlus_complete
           (matchItems [Lit ","; DotPlus; Lit ">"]%char)
           (String "," before) ("," +:+ String a after +:+ ">") [String a after]).
  - discriminate.
  - simpl. exact Hb.
  - change ("," +:+ String a after +:+ ">")
      with (String "," (String a after +:+ ">")).
    rewrite matchItems_Lit. apply match_closing; [discriminate|].
    simpl in Ha. exact Ha.
  - rewrite <- Hnone. simpl. rewrite !append_assoc. reflexivity.
Qed.

Lemma map_pattern_splits_at_last_comma_witness :
  exists key value,
    ["map<a,b<c,d>,e>"; "a,b<c,d>"; "e"] = ["map<a,b<c,d>,e>"; key; value] /\
    "map<a,b<c,d>,e>" = "map<" +:+ key +:+ "," +:+ value +:+ ">" /\
    key <> EmptyString /\ value <> EmptyString /\
    allBytes dot key = true /\ allBytes dot value = true /\
    (forall before after, value = before +:+ "," +:+ after -> after = EmptyString).
Proof.
  apply (map_pattern_splits_at_last_comma "map<a,b<c,d>,e>"). reflexivity.
Defined.

(** X7: the grammar round-trips on every descriptor that holds no map
    inside a map's value (so at every nesting depth at most one, and at any
    depth through lists, sets and map keys): each token whose normal form
    is the descriptor's type string maps to the descriptor's Go type. *)
Theorem roundtrip_without_map_in_value (d : TypeDescriptor) (token : string) :
  flatValues d = true -> normalize token = render d ->
  cqlToGoType token = Ok (goType d).
Proof.
  intros Hflat E. rewrite <- (roundtrip_flat_values d Hflat).
  apply cqlToGoType_normal. rewrite E, render_normal. reflexivity.
Qed.

Lemma roundtrip_without_map_in_value_witness :
  cqlToGoType " Map<List<Map<Int, Text>>, Set<UUID>> "
    = Ok (goType (MapOf (ListOf (MapOf (Scalar Int32) (Scalar Text)))
                        (SetOf (Scalar UUID)))).
Proof.
  apply (roundtrip_without_map_in_value
           (MapOf (ListOf (MapOf (Scalar Int32) (Scalar Text))) (SetOf (Scalar UUID))));
    reflexivity.
Defined.

(** * Further properties of struct generation and of the table loop *)

Section GenerationOutcomes.

Variable ToCamel : string -> string.

Lemma rangeColumns_Err order : forall acc err,
  rangeColumns ToCamel order acc = Err err ->
  exists col, In col order /\ cqlToGoType col.2 = Err err.
Proof.
  induction order as [|[column cqlType] order IH]; cbn [rangeColumns];
    intros acc err; [discriminate|].
  destruct (cqlToGoType cqlType) as [goType|e] eqn:E.
  - intros H. apply IH in H as (col & Hin & Hcol).
    exists col. split; [right|]; assumption.
  - intros [= <-]. exists (column, cqlType). split; [left; reflexivity|exact E].
Qed.

Lemma Forall2_lineOf_mapped order lines :
  Forall2 (lineOf ToCamel) order lines ->
  forall col, In col order -> exists goType, cqlToGoType col.2 = Ok goType.
Proof.
  induction 1 as [|col line order lines (goType & Hg & _) _ IH];
    intros c; simpl; [contradiction|].
  intros [<-|Hin]; [exists goType; exact Hg|apply IH, Hin].
Qed.

Lemma in_order_lookup (columns : gmap string string) order column cqlType :
  order ≡ₚ map_to_list columns ->
  In (column, cqlType) order <-> columns !! column = Some cqlType.
Proof.
  intros Hperm. rewrite <- elem_of_map_to_list, <- Hperm.
  symmetry. apply list_elem_of_In.
Qed.

(** The three outcomes of a generation and what each tells. *)
Lemma generateGoStruct_inv tableName (columns : gmap string string) out :
  generateGoStruct ToCamel tableName columns out ->
  match out with
  | Panicked msg => ToCamel tableName = EmptyString /\ msg = indexPanic
  | Returned (Err err) =>
      ToCamel tableName <> EmptyString /\
      exists column cqlType,
        columns !! column = Some cqlType /\ cqlToGoType cqlType = Err err
  | Returned (Ok text) =>
      ToCamel tableName <> EmptyString /\
      forall column cqlType,
        columns !! column = Some cqlType ->
        exists goType, cqlToGoType cqlType = Ok goType
  end.
Proof.
  intros (order & Hperm & <-). unfold generateGoStructIn, toPascal.
  destruct (ToCamel tableName) as [|c rest] eqn:Ec.
  - split; reflexivity.
  - set (header := Sprintf headerFormat _).
    destruct (rangeColumns ToCamel order header) as [text|err] eqn:E.
    + split; [discriminate|]. intros column cqlType Hl.
      apply rangeColumns_Ok in E as (lines & Hlines & _).
      apply (Forall2_lineOf_mapped _ _ Hlines (column, cqlType)).
      apply (in_order_lookup _ _ _ _ Hperm), Hl.
    + split; [discriminate|].
      apply rangeColumns_Err in E as ([column cqlType] & Hin & Hcol).
      exists column, cqlType. split; [|exact Hcol].
      apply (in_order_lookup _ _ _ _ Hperm), Hin.
Qed.

(** X8: what a generation can and cannot do.  It panics only when the
    table name camel-cases to the empty string, and then with the index
    panic, whatever the columns are; it returns an error only when some
    column of the table has that error as the result of its type; and it
    returns a struct text only when every column type of the table maps:
    never a partial struct. *)
Theorem generation_outcomes tableName (columns : gmap string string) out :
  generateGoStruct ToCamel tableName columns out ->
  match out with
  | Panicked msg => ToCamel tableName = EmptyString /\ msg = indexPanic
  | Returned (Err err) =>
      ToCamel tableName <> EmptyString /\
      exists column cqlType,
        columns !! column = Some cqlType /\ cqlToGoType cqlType = Err err
  | Returned (Ok text) =>
      ToCamel tableName <> EmptyString /\
      forall column cqlType,
        columns !! column = Some cqlType ->
        exists goType, cqlToGoType cqlType = Ok goType
  end.
Proof. apply generateGoStruct_inv. Qed.

End GenerationOutcomes.

Lemma generation_outcomes_witness :
  strcase.ToCamel "metrics" <> EmptyString /\
  exists column cqlType,
    scanColumns [("hits", "counter")] !! column = Some cqlType /\
    cqlToGoType cqlType = Err (UnknownTypeError "counter").
Proof.
  apply (generation_outcomes strcase.ToCamel "metrics"
           (scanColumns [("hits", "counter")])
           (Returned (Err (UnknownTypeError "counter")))).
  exists [("hits", "counter")]. split.
  - rewrite scan_one. reflexivity.
  - vm_compute. reflexivity.
Defined.

(** ** The column map *)

Lemma scanColumns_app rows later :
  scanColumns (rows ++ later)
    = foldl (fun columns row => <[row.1 := row.2]> columns) (scanColumns rows) later.
Proof. unfold scanColumns. apply foldl_app. Qed.

Lemma foldl_insert_other (later : list (string * string)) :
  forall (columns : gmap string string) column,
    (forall row, In row later -> row.1 <> column) ->
    foldl (fun columns row => <[row.1 := row.2]> columns) columns later !! column
      = columns !! column.
Proof.
  induction later as [|row later IH]; intros columns column Hne; simpl;
    [reflexivity|].
  rewrite IH by (intros r Hr; apply Hne; right; exact Hr).
  apply lookup_insert_ne, Hne. left. reflexivity.
Qed.

(** X9: in the column map the last scanned row of a name wins.  A column
    name is bound to the type of the last row that carries it, and a name
    that no row carries is not bound. *)
Theorem last_row_of_a_name_wins (rows later : list (string * string))
    (column cqlType : string) :
  (forall row, In row later -> row.1 <> column) ->
  scanColumns (rows ++ (column, cqlType) :: later) !! column = Some cqlType /\
  ((forall row, In row rows -> row.1 <> column) ->
   scanColumns (rows ++ later) !! column = None).
Proof.
  intros Hlater. split.
  - rewrite scanColumns_app. simpl.
    rewrite foldl_insert_other by assumption. apply lookup_insert_eq.
  - intros Hrows. unfold scanColumns. rewrite foldl_insert_other.
    + apply lookup_empty.
    + intros row [H|H]%in_app_or; [apply Hrows|apply Hlater]; exact H.
Qed.

Lemma last_row_of_a_name_wins_witness :
  scanColumns ([("id", "int")] ++ ("id", "uuid") :: [("name", "text")]) !! "id"
    = Some "uuid" /\
  scanColumns ([("name", "text")] ++ [("tags", "set<text>")]) !! "id" = None.
Proof.
  split.
  - apply (last_row_of_a_name_wins [("id", "int")] [("name", "text")] "id" "uuid").
    intros row [<-|[]]. discriminate.
  - apply (last_row_of_a_name_wins [("name", "text")] [("tags", "set<text>")]
             "id" "uuid").
    + intros row [<-|[]]. discriminate.
    + intros row [<-|[]]. discriminate.
Defined.

Lemma scanColumns_snoc rows column cqlType :
  scanColumns (rows ++ [(column, cqlType)]) = <[column := cqlType]> (scanColumns rows).
Proof. rewrite scanColumns_app. reflexivity. Qed.

(** X10: when the scanned rows carry pairwise distinct column names, the
    entries of the column map are the rows, each once, in some order; the
    map has as many entries as rows were scanned. *)
Theorem distinct_rows_are_the_entries (rows : list (string * string)) :
  NoDup (map fst rows) ->
  map_to_list (scanColumns rows) ≡ₚ rows /\
  size (scanColumns rows) = length rows.
Proof.
  intros Hnd.
  assert (map_to_list (scanColumns rows) ≡ₚ rows) as Hperm.
  { induction rows as [|[column cqlType] rows IH] using rev_ind.
    - unfold scanColumns. simpl. rewrite map_to_list_empty. reflexivity.
    - rewrite map_app in Hnd. apply NoDup_app in Hnd as (Hrows & Hnot & _).
      rewrite scanColumns_snoc, map_to_list_insert.
      + rewrite (IH Hrows). apply Permutation_cons_append.
      + unfold scanColumns. rewrite foldl_insert_other; [apply lookup_empty|].
        intros row Hin Heq. apply (Hnot row.1).
        * apply list_elem_of_In, in_map, Hin.
        * rewrite Heq. simpl. left. }
  split; [exact Hperm|].
  rewrite <- length_map_to_list, Hperm. reflexivity.
Qed.

Lemma distinct_rows_are_the_entries_witness :
  map_to_list (scanColumns [("id", "uuid"); ("name", "text"); ("tags", "set<text>")])
    ≡ₚ [("id", "uuid"); ("name", "text"); ("tags", "set<text>")] /\
  size (scanColumns [("id", "uuid"); ("name", "text"); ("tags", "set<text>")]) = 3.
Proof.
  apply (distinct_rows_are_the_entries
           [("id", "uuid"); ("name", "text"); ("tags", "set<text>")]).
  simpl.
  repeat (apply NoDup_cons_2;
          [rewrite list_elem_of_In; simpl; intuition discriminate|]).
  apply NoDup_nil_2.
Defined.

Lemma foldl_snoc {A} (rows acc : list A) :
  foldl (fun tableNames tableName => tableNames ++ [tableName]) acc rows
    = acc ++ rows.
Proof.
  revert acc. induction rows as [|row rows IH]; intros acc; simpl.
  - rewrite app_nil_r. reflexivity.
  - rewrite IH, <- app_assoc. reflexivity.
Qed.

(** X11: fetchTableNames hands back what the table query answered: the
    scanned names in scan order, none lost or repeated, and the error of
    the iterator unchanged. *)
Theorem table_names_keep_catalog_order (session : Session) (keyspace : string) :
  fetchTableNames session keyspace = tableRows session keyspace.
Proof.
  unfold fetchTableNames. destruct (tableRows session keyspace); [|reflexivity].
  rewrite foldl_snoc. reflexivity.
Qed.

(** ** The table loop *)

Section LoopProperties.

Variable ToCamel : string -> string.
Variable session : Session.
Variable keyspace : string.

Lemma foldl_append (defs : list string) : forall acc,
  foldl String.append acc defs = acc +:+ joinLines defs.
Proof.
  induction defs as [|def defs IH]; intros acc; simpl.
  - rewrite append_nil_r. reflexivity.
  - rewrite IH, append_assoc. reflexivity.
Qed.

Lemma omap_head_err tableName rest err :
  fetchColumnDefinitions session keyspace tableName = Err err ->
  omap (fetchErrorLine session keyspace) (tableName :: rest)
    = Sprintf "Error fetching column definitions for table %s: %v" [tableName; err]
      :: omap (fetchErrorLine session keyspace) rest.
Proof.
  intros Hf.
  change (omap (fetchErrorLine session keyspace) (tableName :: rest))
    with (match fetchErrorLine session keyspace tableName with
          | Some line => line :: omap (fetchErrorLine session keyspace) rest
          | None => omap (fetchErrorLine session keyspace) rest
          end).
  unfold fetchErrorLine at 1. rewrite Hf. reflexivity.
Qed.

Lemma omap_head_ok tableName rest columns :
  fetchColumnDefinitions session keyspace tableName = Ok columns ->
  omap (fetchErrorLine session keyspace) (tableName :: rest)
    = omap (fetchErrorLine session keyspace) rest.
Proof.
  intros Hf.
  change (omap (fetchErrorLine session keyspace) (tableName :: rest))
    with (match fetchErrorLine session keyspace tableName with
          | Some line => line :: omap (fetchErrorLine session keyspace) rest
          | None => omap (fetchErrorLine session keyspace) rest
          end).
  unfold fetchErrorLine at 1. rewrite Hf. reflexivity.
Qed.

Lemma filter_head_err tableName rest err :
  fetchColumnDefinitions session keyspace tableName = Err err ->
  List.filter (fetched session keyspace) (tableName :: rest)
    = List.filter (fetched session keyspace) rest.
Proof. intros Hf. simpl. unfold fetched at 1. rewrite Hf. reflexivity. Qed.

Lemma filter_head_ok tableName rest columns :
  fetchColumnDefinitions session keyspace tableName = Ok columns ->
  List.filter (fetched session keyspace) (tableName :: rest)
    = tableName :: List.filter (fetched session keyspace) rest.
Proof. intros Hf. simpl. unfold fetched at 1. rewrite Hf. reflexivity. Qed.

(** A loop that returns has logged the failed queries and appended a struct
    for every other table, in table order. *)
Lemma tableLoop_Returned tableNames st out :
  tableLoop ToCamel session keyspace tableNames st out ->
  forall st', out = Returned st' ->
    logged st' = logged st ++ omap (fetchErrorLine session keyspace) tableNames /\
    exists defs,
      structDefinitions st' = structDefinitions st ++ defs /\
      Forall2 (generatedFor ToCamel session keyspace) (List.filter (fetched session keyspace) tableNames) defs.
Proof.
  induction 1 as [st|tableName rest st err out Hf _ IH
                  |tableName rest st columns msg Hf Hg
                  |tableName rest st columns err Hf Hg
                  |tableName rest st columns structDef out Hf Hg _ IH];
    intros st' E; try discriminate E.
  - injection E as <-. simpl. rewrite !app_nil_r. split; [reflexivity|].
    exists []. rewrite app_nil_r. split; [reflexivity|constructor].
  - destruct (IH st' E) as (Hlog & defs & Hdefs & Hall).
    simpl in Hlog, Hdefs. rewrite (omap_head_err _ _ _ Hf), (filter_head_err _ _ _ Hf).
    rewrite Hlog, <- app_assoc. split; [reflexivity|].
    exists defs. split; assumption.
  - destruct (IH st' E) as (Hlog & defs & Hdefs & Hall).
    simpl in Hlog, Hdefs. rewrite (omap_head_ok _ _ _ Hf), (filter_head_ok _ _ _ Hf).
    split; [exact Hlog|].
    exists (structDef :: defs). rewrite Hdefs, <- app_assoc. split; [reflexivity|].
    constructor; [|exact Hall]. exists columns. split; assumption.
Qed.

(** A loop that panics does so in the generation of one of its tables. *)
Lemma tableLoop_Panicked tableNames st out :
  tableLoop ToCamel session keyspace tableNames st out ->
  forall msg, out = Panicked msg ->
    exists tableName columns,
      In tableName tableNames /\
      fetchColumnDefinitions session keyspace tableName = Ok columns /\
      (generateGoStruct ToCamel tableName columns (Panicked msg) \/
       generateGoStruct ToCamel tableName columns (Returned (Err msg))).
Proof.
  induction 1 as [st|tableName rest st err out Hf _ IH
                  |tableName rest st columns msg' Hf Hg
                  |tableName rest st columns err Hf Hg
                  |tableName rest st columns structDef out Hf Hg _ IH];
    intros msg E; try discriminate E.
  - destruct (IH msg E) as (t & cols & Hin & H). exists t, cols.
    split; [right; exact Hin|exact H].
  - injection E as <-. exists tableName, columns.
    split; [left; reflexivity|]. split; [exact Hf|left; exact Hg].
  - injection E as <-. exists tableName, columns.
    split; [left; reflexivity|]. split; [exact Hf|right; exact Hg].
  - destruct (IH msg E) as (t & cols & Hin & H). exists t, cols.
    split; [right; exact Hin|exact H].
Qed.

(** X12: what the table loop has collected when it returns.  Started with
    nothing collected, it ends with one struct text per table whose column
    query succeeded, in the order of the table names, each a generation of
    that table, and with one log line per table whose column query failed,
    in the same order; the text main goes on to write is the package line
    followed by those struct texts. *)
Theorem loop_collects_fetched_tables_in_order (tableNames : list string)
    (st : loopState) :
  tableLoop ToCamel session keyspace tableNames
    {| structDefinitions := []; logged := [] |} (Returned st) ->
  Forall2 (generatedFor ToCamel session keyspace)
    (List.filter (fetched session keyspace) tableNames) (structDefinitions st) /\
  logged st = omap (fetchErrorLine session keyspace) tableNames /\
  fileContent st = "package main" +:+ LF +:+ joinLines (structDefinitions st).
Proof.
  intros Hloop.
  destruct (tableLoop_Returned _ _ _ Hloop st eq_refl) as (Hlog & defs & Hdefs & Hall).
  simpl in Hlog, Hdefs. rewrite Hdefs, Hlog. repeat split; try assumption.
  unfold fileContent. rewrite Hdefs, foldl_append, append_assoc. reflexivity.
Qed.

(** X13: a run completes only when every column of every fetched table has
    a mapped type and every fetched table a name that camel-cases to a
    non-empty string: one unmapped column type anywhere in the keyspace and
    no execution writes the file. *)
Theorem run_completes_only_if_all_mapped (written : string * list string)
    (tableNames : list string) :
  run ToCamel session keyspace (Returned written) ->
  fetchTableNames session keyspace = Ok tableNames ->
  forall tableName columns,
    In tableName tableNames ->
    fetchColumnDefinitions session keyspace tableName = Ok columns ->
    ToCamel tableName <> EmptyString /\
    forall column cqlType,
      columns !! column = Some cqlType ->
      exists goType, cqlToGoType cqlType = Ok goType.
Proof.
  intros H Hn tableName columns Hin Hf.
  inversion H as [|names st Hn' Hloop E]; subst.
  rewrite Hn in Hn'. injection Hn' as <-.
  destruct (tableLoop_Returned _ _ _ Hloop st eq_refl) as (_ & defs & _ & Hall).
  assert (In tableName (List.filter (fetched session keyspace) tableNames)) as Hin'.
  { apply filter_In. split; [exact Hin|]. unfold fetched. rewrite Hf. reflexivity. }
  clear Hloop Hin. revert Hin'.
  induction Hall as [|t def ts ds (cols & Hc & Hg) _ IH]; simpl; [contradiction|].
  intros [->|Hin']; [|apply IH, Hin'].
  rewrite Hf in Hc. injection Hc as <-.
  apply (generateGoStruct_inv ToCamel) in Hg. exact Hg.
Qed.

Lemma filter_none_fetched tableNames :
  (forall tableName, In tableName tableNames ->
                     fetched session keyspace tableName = false) ->
  List.filter (fetched session keyspace) tableNames = [].
Proof.
  induction tableNames as [|t ts IH]; intros Hall; simpl; [reflexivity|].
  rewrite (Hall t (or_introl eq_refl)). apply IH.
  intros x Hx. apply Hall. right. exact Hx.
Qed.

(** X14: the table loop aborts in two ways only.  When it panics, one of
    its tables, whose columns were fetched, either has a name that
    camel-cases to the empty string, and the message is the index panic,
    or has a column whose type the mapper fails on, and the message is
    that error. *)
Theorem loop_panics_for_two_reasons (tableNames : list string) (st : loopState)
    (msg : string) :
  tableLoop ToCamel session keyspace tableNames st (Panicked msg) ->
  exists tableName columns,
    In tableName tableNames /\
    fetchColumnDefinitions session keyspace tableName = Ok columns /\
    ((ToCamel tableName = EmptyString /\ msg = indexPanic) \/
     (exists column cqlType,
         columns !! column = Some cqlType /\
         cqlToGoType cqlType = Err msg)).
Proof.
  intros Hloop.
  destruct (tableLoop_Panicked _ _ _ Hloop msg eq_refl)
    as (tableName & columns & Hin & Hf & [Hg|Hg]);
    apply (generateGoStruct_inv ToCamel) in Hg;
    exists tableName, columns; (split; [exact Hin|]); (split; [exact Hf|]).
  - left. exact Hg.
  - right. apply Hg.
Qed.

(** X15: errors of the column query never stop the loop.  When the query
    fails for every table (or there is no table), the loop returns, on
    every execution, with the struct definitions it started with and one
    more log line per table, in table order. *)
Theorem fetch_errors_never_stop_the_loop (tableNames : list string)
    (st : loopState) :
  (forall tableName, In tableName tableNames ->
                     fetched session keyspace tableName = false) ->
  let st' := {| structDefinitions := structDefinitions st;
                logged := logged st ++
                          omap (fetchErrorLine session keyspace) tableNames |} in
  tableLoop ToCamel session keyspace tableNames st (Returned st') /\
  (forall out, tableLoop ToCamel session keyspace tableNames st out ->
               out = Returned st').
Proof.
  intros Hall. cbv zeta. split.
  - revert st. induction tableNames as [|t ts IH]; intros st.
    + simpl. rewrite app_nil_r. destruct st. apply loop_end.
    + pose proof (Hall t (or_introl eq_refl)) as Ht. unfold fetched in Ht.
      destruct (fetchColumnDefinitions session keyspace t) as [|err] eqn:Hf;
        [discriminate|].
      eapply loop_continue; [exact Hf|].
      specialize (IH (fun x Hx => Hall x (or_intror Hx)) (logFetchError st t err)).
      simpl in IH. rewrite <- app_assoc in IH.
      rewrite (omap_head_err _ _ _ Hf). exact IH.
  - intros out Hloop. destruct out as [st''|msg].
    + destruct (tableLoop_Returned _ _ _ Hloop st'' eq_refl)
        as (Hlog & defs & Hdefs & Hgen).
      rewrite (filter_none_fetched _ Hall) in Hgen.
      apply Forall2_nil_inv_l in Hgen. subst defs.
      rewrite app_nil_r in Hdefs. destruct st''. simpl in *. subst. reflexivity.
    + destruct (tableLoop_Panicked _ _ _ Hloop msg eq_refl)
        as (t & cols & Hin & Hf & _).
      specialize (Hall t Hin). unfold fetched in Hall. rewrite Hf in Hall.
      discriminate.
Qed.

End LoopProperties.

Lemma loop_collects_fetched_tables_in_order_witness :
  let users := headerLine "Users" +:+ fieldLine "Id" "gocql.UUID" "id" +:+ "}" +:+ LF in
  let line := "Error fetching column definitions for table metrics: gocql: no response received" in
  Forall2 (generatedFor strcase.ToCamel failingSession "ks")
    (List.filter (fetched failingSession "ks") ["metrics"; "users"]) [users] /\
  [line] = omap (fetchErrorLine failingSession "ks") ["metrics"; "users"] /\
  fileContent {| structDefinitions := [users]; logged := [line] |}
    = "package main" +:+ LF +:+ joinLines [users].
Proof.
  cbv zeta.
  apply (loop_collects_fetched_tables_in_order strcase.ToCamel failingSession "ks"
           ["metrics"; "users"]
           {| structDefinitions :=
                [headerLine "Users" +:+ fieldLine "Id" "gocql.UUID" "id" +:+ "}" +:+ LF];
              logged := ["Error fetching column definitions for table metrics: gocql: no response received"] |}).
  eapply loop_continue; [reflexivity|].
  eapply (loop_append _ _ _ _ _ _ (scanColumns [("id", "uuid")])); [reflexivity| |].
  - apply generateGoStruct_one. vm_compute. reflexivity.
  - apply loop_end.
Defined.

Lemma run_completes_only_if_all_mapped_witness :
  strcase.ToCamel "users" <> EmptyString /\
  forall column cqlType,
    scanColumns [("id", "uuid")] !! column = Some cqlType ->
    exists goType, cqlToGoType cqlType = Ok goType.
Proof.
  apply (run_completes_only_if_all_mapped strcase.ToCamel failingSession "ks"
           _ ["metrics"; "users"] fetch_error_is_skipped eq_refl "users");
    [simpl; auto|reflexivity].
Defined.

Lemma loop_panics_for_two_reasons_witness :
  exists tableName columns,
    In tableName ["metrics"; "users"] /\
    fetchColumnDefinitions counterSession "ks" tableName = Ok columns /\
    ((strcase.ToCamel tableName = EmptyString /\
      UnknownTypeError "counter" = indexPanic) \/
     (exists column cqlType,
         columns !! column = Some cqlType /\
         cqlToGoType cqlType = Err (UnknownTypeError "counter"))).
Proof.
  apply (loop_panics_for_two_reasons strcase.ToCamel counterSession "ks"
           ["metrics"; "users"] {| structDefinitions := []; logged := [] |}).
  apply (loop_panic _ _ _ _ _ _ (scanColumns [("hits", "counter")]));
    [reflexivity|].
  apply generateGoStruct_one. vm_compute. reflexivity.
Defined.

Lemma fetch_errors_never_stop_the_loop_witness :
  let st' := {| structDefinitions := [];
                logged := [] ++ omap (fetchErrorLine unreachableSession "ks")
                                  ["metrics"; "users"] |} in
  tableLoop strcase.ToCamel unreachableSession "ks" ["metrics"; "users"]
    {| structDefinitions := []; logged := [] |} (Returned st') /\
  (forall out,
      tableLoop strcase.ToCamel unreachableSession "ks" ["metrics"; "users"]
        {| structDefinitions := []; logged := [] |} out ->
      out = Returned st').
Proof.
  apply (fetch_errors_never_stop_the_loop strcase.ToCamel unreachableSession "ks"
           ["metrics"; "users"] {| structDefinitions := []; logged := [] |}).
  intros tableName _. reflexivity.
Defined.

(** ** More on the results of the mapper and of a generation *)

Lemma scalar_value_kind tag goType :
  switch scalarCases tag = Some goType ->
  exists kind, goType = scalarGoType kind.
Proof.
  intros H. apply switch_Some in H as (labels & Hin & _).
  unfold scalarCases in Hin. simpl in Hin.
  repeat (destruct Hin as [[= <- <-]|Hin];
    [first [ exists Boolean; reflexivity | exists Text; reflexivity
           | exists Int32; reflexivity | exists Int64; reflexivity
           | exists Int8; reflexivity | exists Int16; reflexivity
           | exists Float32; reflexivity | exists Float64; reflexivity
           | exists Decimal; reflexivity | exists Timestamp; reflexivity
           | exists Date; reflexivity | exists Time; reflexivity
           | exists Blob; reflexivity | exists UUID; reflexivity ]|]).
  contradiction.
Qed.

(** X16: the mapper returns nothing but Go types of the grammar.  Every
    successful result is the Go type of a type descriptor: one of the
    fourteen scalar types under slices, struct-valued maps and maps. *)
Theorem every_result_is_a_descriptor (cqlType goTypeText : string) :
  cqlToGoType cqlType = Ok goTypeText ->
  exists d : TypeDescriptor, goTypeText = goType d.
Proof.
  remember (S (String.length cqlType)) as n eqn:Hn.
  assert (String.length cqlType < n) as Hlt by lia. clear Hn.
  revert cqlType goTypeText Hlt.
  induction n as [|n IH]; intros cqlType goTypeText Hlt; [lia|].
  destruct pattern_literals as (Lm & Ll & Ls).
  rewrite cqlToGoType_eq. cbv zeta.
  destruct (FindStringSubmatch mapPattern (normalize cqlType)) as [ms|] eqn:Em.
  { pose proof (submatch_shorter _ _ _ 0 _ Lm Em eq_refl) as H1.
    pose proof (submatch_shorter _ _ _ 1 _ Lm Em eq_refl) as H2.
    destruct (cqlToGoType (index ms 1)) as [gk|ek] eqn:Ek; [|discriminate].
    destruct (cqlToGoType (index ms 2)) as [gv|ev] eqn:Ev; [|discriminate].
    intros [= <-].
    destruct (IH (index ms 1) gk ltac:(lia) Ek) as [dk ->].
    destruct (IH (index ms 2) gv ltac:(lia) Ev) as [dv ->].
    exists (MapOf dk dv). simpl. rewrite append_nil_r. reflexivity. }
  destruct (FindStringSubmatch listPattern (normalize cqlType)) as [ms|] eqn:El.
  { pose proof (submatch_shorter _ _ _ 0 _ Ll El eq_refl) as H1.
    destruct (cqlToGoType (index ms 1)) as [g|e] eqn:Ee; [|discriminate].
    intros [= <-]. destruct (IH (index ms 1) g ltac:(lia) Ee) as [d ->].
    exists (ListOf d). simpl. rewrite append_nil_r. reflexivity. }
  destruct (FindStringSubmatch setPattern (normalize cqlType)) as [ms|] eqn:Es.
  { pose proof (submatch_shorter _ _ _ 0 _ Ls Es eq_refl) as H1.
    destruct (cqlToGoType (index ms 1)) as [g|e] eqn:Ee; [|discriminate].
    intros [= <-]. destruct (IH (index ms 1) g ltac:(lia) Ee) as [d ->].
    exists (SetOf d). reflexivity. }
  unfold scalarToGoType.
  destruct (switch scalarCases (normalize cqlType)) as [g|] eqn:Esw; [|discriminate].
  intros [= <-]. destruct (scalar_value_kind _ _ Esw) as [kind ->].
  exists (Scalar kind). reflexivity.
Qed.

Lemma every_result_is_a_descriptor_witness :
  exists d : TypeDescriptor, "map[gocql.UUID][]string" = goType d.
Proof.
  apply (every_result_is_a_descriptor "MAP<time.uuid, list<VARCHAR>>").
  vm_compute. reflexivity.
Defined.

Section GenerationShape.

Variable ToCamel : string -> string.

Lemma Forall2_lineOf_map order lines :
  Forall2 (lineOf ToCamel) order lines -> lines = map (writtenLine ToCamel) order.
Proof.
  induction 1 as [|col line order lines (goType & Hg & ->) _ IH]; simpl;
    [reflexivity|].
  unfold writtenLine at 1. rewrite Hg, IH. reflexivity.
Qed.

(** X17: two generations of a table differ in the order of the field lines
    and in nothing else.  Each is the opening line with the same name, the
    lines of the entries of the column map in some order, every entry once
    and every column type mapped, and the closing brace. *)
Theorem generations_differ_by_line_order tableName (columns : gmap string string)
    (text1 text2 : string) :
  generateGoStruct ToCamel tableName columns (Returned (Ok text1)) ->
  generateGoStruct ToCamel tableName columns (Returned (Ok text2)) ->
  exists name order1 order2,
    toPascal ToCamel tableName = Returned name /\
    order1 ≡ₚ map_to_list columns /\
    order2 ≡ₚ map_to_list columns /\
    (forall column cqlType,
        columns !! column = Some cqlType ->
        exists goType, cqlToGoType cqlType = Ok goType) /\
    text1 = headerLine name +:+
            joinLines (map (writtenLine ToCamel) order1) +:+ "}" +:+ LF /\
    text2 = headerLine name +:+
            joinLines (map (writtenLine ToCamel) order2) +:+ "}" +:+ LF.
Proof.
  intros (order1 & Hp1 & H1) (order2 & Hp2 & H2).
  apply generateGoStructIn_Ok in H1 as (name & lines1 & Hn & Hl1 & ->).
  apply generateGoStructIn_Ok in H2 as (name' & lines2 & Hn' & Hl2 & ->).
  rewrite Hn in Hn'. injection Hn' as <-.
  exists name, order1, order2.
  rewrite (Forall2_lineOf_map _ _ Hl1), (Forall2_lineOf_map _ _ Hl2).
  repeat split; try assumption.
  intros column cqlType Hl.
  apply (Forall2_lineOf_mapped ToCamel _ _ Hl1 (column, cqlType)).
  apply list_elem_of_In. rewrite Hp1. apply elem_of_map_to_list, Hl.
Qed.

(** X18: a table without columns generates an empty struct, not an error:
    the opening line and the closing brace. *)
Theorem no_columns_give_an_empty_struct tableName name out :
  toPascal ToCamel tableName = Returned name ->
  generateGoStruct ToCamel tableName ∅ out ->
  out = Returned (Ok (headerLine name +:+ "}" +:+ LF)).
Proof.
  intros Hn (order & Hperm & <-).
  rewrite map_to_list_empty in Hperm. apply Permutation_nil_r in Hperm.
  subst order. unfold generateGoStructIn. rewrite Hn. reflexivity.
Qed.

End GenerationShape.

Lemma generations_differ_by_line_order_witness :
  exists name order1 order2,
    toPascal strcase.ToCamel "users" = Returned name /\
    order1 ≡ₚ map_to_list (scanColumns [("id", "uuid"); ("name", "text")]) /\
    order2 ≡ₚ map_to_list (scanColumns [("id", "uuid"); ("name", "text")]) /\
    (forall column cqlType,
        scanColumns [("id", "uuid"); ("name", "text")] !! column = Some cqlType ->
        exists goType, cqlToGoType cqlType = Ok goType) /\
    headerLine "Users" +:+ fieldLine "Id" "gocql.UUID" "id" +:+
      fieldLine "Name" "string" "name" +:+ "}" +:+ LF
      = headerLine name +:+
        joinLines (map (writtenLine strcase.ToCamel) order1) +:+ "}" +:+ LF /\
    headerLine "Users" +:+ fieldLine "Name" "string" "name" +:+
      fieldLine "Id" "gocql.UUID" "id" +:+ "}" +:+ LF
      = headerLine name +:+
        joinLines (map (writtenLine strcase.ToCamel) order2) +:+ "}" +:+ LF.
Proof.
  apply (generations_differ_by_line_order strcase.ToCamel "users"
           (scanColumns [("id", "uuid"); ("name", "text")])).
  - exists [("id", "uuid"); ("name", "text")]. split.
    + rewrite scan_two by discriminate. apply Permutation_swap.
    + vm_compute. reflexivity.
  - exists [("name", "text"); ("id", "uuid")]. split.
    + rewrite scan_two by discriminate. reflexivity.
    + vm_compute. reflexivity.
Defined.

Lemma no_columns_give_an_empty_struct_witness :
  generateGoStructIn strcase.ToCamel "audit_log" []
    = Returned (Ok (headerLine "AuditLog" +:+ "}" +:+ LF)).
Proof.
  apply (no_columns_give_an_empty_struct strcase.ToCamel "audit_log" "AuditLog").
  - reflexivity.
  - exists []. split; [rewrite map_to_list_empty|]; reflexivity.
Defined.
